(** * HunyuanVideo LoRA loader: key normaliser, block filter, Musubi
      converter and single-slot load cache (lora_loader.py)

    The Python class [HunyuanVideoLoraLoader] is embedded shallowly:
    strings are [string], a [Dict[str, Tensor]] is an insertion-ordered
    association list, tensors and the host's collaborators are type
    classes, and printing, exceptions, collaborator calls
    and the instance attribute [loaded_lora] are threaded through a small
    state-and-exception monad. *)

From Stdlib Require Import String Ascii List Bool Arith ZArith Lia.
Import ListNotations.
Open Scope string_scope.

(** ** Python string operations *)

Module PyStr.

(** [key.startswith(p)] *)
Definition startswith (p key : string) : bool := String.prefix p key.

(** [key[n:]] *)
Fixpoint drop (n : nat) (s : string) : string :=
  match n, s with
  | O, _ => s
  | S _, EmptyString => EmptyString
  | S n', String _ s' => drop n' s'
  end.

(** [sub in s] *)
Fixpoint contains (sub s : string) : bool :=
  String.prefix sub s ||
  match s with
  | EmptyString => false
  | String _ s' => contains sub s'
  end.

(** [s.split(".", 1)[0]]: the text before the first dot, the whole
    string when it has none. *)
Fixpoint before_first_dot (s : string) : string :=
  match s with
  | EmptyString => EmptyString
  | String c s' =>
      if Ascii.eqb c "."%char then EmptyString
      else String c (before_first_dot s')
  end.

(** [s.replace(old, new)] for a non-empty [old]: occurrences are found
    left to right and do not overlap.  [skip] counts the characters of
    a matched occurrence still to be passed over. *)
Fixpoint replace_from (old new : string) (skip : nat) (s : string) : string :=
  match s with
  | EmptyString => EmptyString
  | String c s' =>
      match skip with
      | S k => replace_from old new k s'
      | O =>
          if String.prefix old s
          then new ++ replace_from old new (pred (String.length old)) s'
          else String c (replace_from old new O s')
      end
  end.

(** With an empty [old] Python puts [new] before every character and at
    the end. *)
Fixpoint intersperse (new s : string) : string :=
  match s with
  | EmptyString => new
  | String c s' => new ++ String c (intersperse new s')
  end.

Definition replace (old new s : string) : string :=
  match old with
  | EmptyString => intersperse new s
  | _ => replace_from old new O s
  end.

End PyStr.

(** ** Python dictionaries: insertion-ordered, one entry per key *)

Module PyDict.

Definition dict (V : Type) : Type := list (string * V).

(** [d[k]] / [d.get(k)] *)
Fixpoint get {V} (d : dict V) (k : string) : option V :=
  match d with
  | [] => None
  | (k', v) :: d' => if String.eqb k' k then Some v else get d' k
  end.

(** [k in d] *)
Definition mem {V} (k : string) (d : dict V) : bool :=
  match get d k with Some _ => true | None => false end.

(** [d[k] = v]: an existing key keeps its place and takes the new
    value, a new key goes to the end. *)
Fixpoint set {V} (k : string) (v : V) (d : dict V) : dict V :=
  match d with
  | [] => [(k, v)]
  | (k', v') :: d' =>
      if String.eqb k' k then (k', v) :: d' else (k', v') :: set k v d'
  end.

Definition keys {V} (d : dict V) : list string := map fst d.

(** What distinguishes a dictionary from an arbitrary list of pairs. *)
Definition wf {V} (d : dict V) : Prop := NoDup (keys d).

End PyDict.

Import PyStr PyDict.

(** ** convert_key_format (lines 44-53) *)

(** The [for prefix in prefixes: ... break] loop. *)
Fixpoint strip_first_prefix (prefixes : list string) (key : string) : string :=
  match prefixes with
  | [] => key
  | prefix :: rest =>
      if startswith prefix key then drop (String.length prefix) key
      else strip_first_prefix rest key
  end.

Definition prefixes : list string := ["diffusion_model."; "transformer."].

Definition convert_key_format (key : string) : string :=
  strip_first_prefix prefixes key.

(** ** filter_lora_keys (lines 55-70) *)

(** One iteration of the loop body.  Python reads the chained comparison
    [blocks_type == "single_blocks" in base_key] as
    [blocks_type == "single_blocks" and "single_blocks" in base_key]. *)
Definition filter_entry {V} (blocks_type : string)
    (filtered_lora : dict V) (entry : string * V) : dict V :=
  let '(key, value) := entry in
  let base_key := convert_key_format key in
  if String.eqb blocks_type "single_blocks" && contains "single_blocks" base_key
  then set key value filtered_lora
  else if String.eqb blocks_type "double_blocks" && contains "double_blocks" base_key
  then set key value filtered_lora
  else filtered_lora.

Definition filter_lora_keys {V} (lora : dict V) (blocks_type : string) : dict V :=
  if String.eqb blocks_type "all" then lora
  else fold_left (filter_entry blocks_type) lora [].

(** ** What the loader needs from torch and from the host *)

(** The tensor operations used by the converter: [t.shape],
    [t / dim] with an integer [dim], [t.sqrt()] and [t * u]. *)
Class Tensor (tensor : Type) : Type := {
  shape : tensor -> list Z;
  div_int : tensor -> Z -> tensor;
  sqrt : tensor -> tensor;
  mul : tensor -> tensor -> tensor
}.

Inductive exn : Type :=
| IndexError
| UnboundLocalError
| Exception (msg : string)
| HostError (msg : string).

Inductive result (A : Type) : Type :=
| Ok (a : A)
| Raise (e : exn).
Arguments Ok {A} a.
Arguments Raise {A} e.

(** The collaborators imported by [load_lora]:
    [folder_paths.get_full_path], [os.path.exists],
    [comfy.utils.load_torch_file] and [comfy.sd.load_lora_for_models]
    (called with no clip model and clip strength 0; only the model half
    of its answer is used). *)
Class Host (tensor model strength : Type) : Type := {
  get_full_path : string -> string -> string;
  path_exists : string -> bool;
  load_torch_file : string -> result (dict tensor);
  load_lora_for_models : model -> dict tensor -> strength -> result (option model)
}.

(** A record of each collaborator call, in the order the calls are made. *)
Inductive call (tensor model strength : Type) : Type :=
| GetFullPath (folder name : string)
| PathExists (path : string)
| LoadTorchFile (path : string)
| LoadLoraForModels (m : model) (lora : dict tensor) (s : strength).
Arguments GetFullPath {tensor model strength} folder name.
Arguments PathExists {tensor model strength} path.
Arguments LoadTorchFile {tensor model strength} path.
Arguments LoadLoraForModels {tensor model strength} m lora s.

(** The loader instance and what it has done so far: the printed lines,
    the collaborator calls, and the attribute [self.loaded_lora]. *)
Record state (tensor model strength : Type) : Type := mkState {
  stdout : list string;
  calls : list (call tensor model strength);
  loaded_lora : option (string * dict tensor)
}.
Arguments mkState {tensor model strength} stdout calls loaded_lora.
Arguments stdout {tensor model strength} s.
Arguments calls {tensor model strength} s.
Arguments loaded_lora {tensor model strength} s.

(** [__init__]: nothing printed, nothing called, an empty cache. *)
Definition init {tensor model strength} : state tensor model strength :=
  mkState [] [] None.

Section Loader.

Context {tensor model strength : Type}.
Context {T : Tensor tensor} {H : Host tensor model strength}.

(** *** The monad of the loader's methods *)

Definition M (A : Type) : Type :=
  state tensor model strength -> result A * state tensor model strength.

Definition ret {A} (a : A) : M A := fun s => (Ok a, s).

Definition bind {A B} (c : M A) (k : A -> M B) : M B :=
  fun s =>
    match c s with
    | (Ok a, s') => k a s'
    | (Raise e, s') => (Raise e, s')
    end.

Definition raise {A} (e : exn) : M A := fun s => (Raise e, s).

Definition print (line : string) : M unit :=
  fun s => (Ok tt, mkState (stdout s ++ [line]) (calls s) (loaded_lora s)).

Definition record_call (c : call tensor model strength) : M unit :=
  fun s => (Ok tt, mkState (stdout s) (calls s ++ [c]) (loaded_lora s)).

Definition get_loaded_lora : M (option (string * dict tensor)) :=
  fun s => (Ok (loaded_lora s), s).

Definition set_loaded_lora (c : option (string * dict tensor)) : M unit :=
  fun s => (Ok tt, mkState (stdout s) (calls s) c).

Definition lift {A} (r : result A) : M A := fun s => (r, s).

Local Notation "x <- c ;; k" := (bind c (fun x => k))
  (at level 61, c at next level, right associativity).
Local Notation "c ;;; k" := (bind c (fun _ => k))
  (at level 61, right associativity).

(** [for x in items: acc = body(acc, x)] *)
Fixpoint for_each {A S} (body : S -> A -> M S) (items : list A) (acc : S) : M S :=
  match items with
  | [] => ret acc
  | x :: rest => acc' <- body acc x ;; for_each body rest acc'
  end.

(** *** check_for_musubi (lines 72-121) *)

Definition lora_unet_prefix : string := "lora_unet_".

(** The first loop (lines 77-82): the alpha table and the flag. *)
Definition scan_entry (acc : dict tensor * bool) (entry : string * tensor)
  : dict tensor * bool :=
  let '(lora_alphas, musubi) := acc in
  let '(key, value) := entry in
  if startswith lora_unet_prefix key then
    let lora_name := before_first_dot key in
    if negb (mem lora_name lora_alphas) && contains "alpha" key
    then (set lora_name value lora_alphas, true)
    else (lora_alphas, musubi)
  else (lora_alphas, musubi).

Definition scan_alphas (lora : dict tensor) : dict tensor * bool :=
  fold_left scan_entry lora ([], false).

(** Lines 92-98. *)
Definition module_name_of (lora_name : string) : string :=
  let module_name := drop (String.length lora_unet_prefix) lora_name in
  let module_name := replace "_" "." module_name in
  let module_name := replace "double.blocks." "double_blocks." module_name in
  let module_name := replace "single.blocks." "single_blocks." module_name in
  let module_name := replace "img." "img_" module_name in
  let module_name := replace "txt." "txt_" module_name in
  let module_name := replace "attn." "attn_" module_name in
  module_name.

Definition diffusers_prefix : string := "diffusion_model".

(** [weight.shape[i]] *)
Definition shape_at (weight : tensor) (i : nat) : M Z :=
  match nth_error (shape weight) i with
  | Some dim => ret dim
  | None => raise IndexError
  end.

(** Lines 109-117. *)
Definition scale_and_store (lora_alphas : dict tensor) (lora_name new_key : string)
    (dim : Z) (weight : tensor) (converted_lora : dict tensor) : M (dict tensor) :=
  weight' <- match get lora_alphas lora_name with
             | Some alpha => ret (mul weight (sqrt (div_int alpha dim)))
             | None => print ("missing alpha for " ++ lora_name) ;;; ret weight
             end ;;
  ret (set new_key weight' converted_lora).

(** The body of the second loop (lines 87-117). *)
Definition convert_entry (lora_alphas : dict tensor)
    (converted_lora : dict tensor) (entry : string * tensor) : M (dict tensor) :=
  let '(key, weight) := entry in
  if startswith lora_unet_prefix key then
    if contains "alpha" key then ret converted_lora
    else
      let lora_name := before_first_dot key in
      let module_name := module_name_of lora_name in
      if contains "lora_down" key then
        let new_key := diffusers_prefix ++ "." ++ module_name ++ ".lora_A.weight" in
        dim <- shape_at weight 0 ;;
        scale_and_store lora_alphas lora_name new_key dim weight converted_lora
      else if contains "lora_up" key then
        let new_key := diffusers_prefix ++ "." ++ module_name ++ ".lora_B.weight" in
        dim <- shape_at weight 1 ;;
        scale_and_store lora_alphas lora_name new_key dim weight converted_lora
      else
        print ("unexpected key: " ++ key ++ " in Musubi LoRA format") ;;;
        ret converted_lora
  else ret converted_lora.

Definition check_for_musubi (lora : dict tensor) : M (dict tensor) :=
  let '(lora_alphas, musubi) := scan_alphas lora in
  if musubi then
    print "Loading Musubi Tuner format LoRA..." ;;;
    for_each (convert_entry lora_alphas) lora []
  else
    print "Loading Diffusers format LoRA..." ;;;
    ret lora.

(** *** load_lora (lines 123-175) *)

(** Lines 155-164.  The local variable [lora] is unbound until one of
    the two branches assigns it. *)
Definition load_cached (lora_path : string) : M (dict tensor) :=
  cached <- get_loaded_lora ;;
  lora <- match cached with
          | Some (path, mapping) =>
              if String.eqb path lora_path then ret (Some mapping)
              else set_loaded_lora None ;;; ret None
          | None => ret None
          end ;;
  cached' <- get_loaded_lora ;;
  match cached' with
  | None =>
      record_call (LoadTorchFile lora_path) ;;;
      fresh <- lift (load_torch_file lora_path) ;;
      set_loaded_lora (Some (lora_path, fresh)) ;;;
      ret fresh
  | Some _ =>
      match lora with
      | Some mapping => ret mapping
      | None => raise UnboundLocalError
      end
  end.

Definition load_lora (m : model) (lora_name : string) (s : strength)
    (blocks_type : string) : M model :=
  match lora_name with
  | EmptyString => ret m
  | _ =>
      record_call (GetFullPath "loras" lora_name) ;;;
      let lora_path := get_full_path "loras" lora_name in
      record_call (PathExists lora_path) ;;;
      if negb (path_exists lora_path)
      then raise (Exception ("Lora " ++ lora_name ++ " not found at " ++ lora_path))
      else
        lora <- load_cached lora_path ;;
        diffusers_lora <- check_for_musubi lora ;;
        let filtered_lora := filter_lora_keys diffusers_lora blocks_type in
        record_call (LoadLoraForModels m filtered_lora s) ;;;
        new_model <- lift (load_lora_for_models m filtered_lora s) ;;
        match new_model with
        | Some m' => ret m'
        | None => ret m
        end
  end.

End Loader.

(** ** Vocabulary of the properties *)

(** The state after one more printed line. *)
Definition printed {tensor model strength} (line : string)
    (s : state tensor model strength) : state tensor model strength :=
  mkState (stdout s ++ [line]) (calls s) (loaded_lora s).

(** The state with other printed lines, everything else kept. *)
Definition with_stdout {tensor model strength} (lines : list string)
    (s : state tensor model strength) : state tensor model strength :=
  mkState lines (calls s) (loaded_lora s).

(** Keys by the tests the converter applies to them. *)
Definition sentinel_key (key : string) : bool :=
  startswith lora_unet_prefix key.

Definition alpha_key (key : string) : bool :=
  startswith lora_unet_prefix key && contains "alpha" key.

Definition weight_key (key : string) : bool :=
  startswith lora_unet_prefix key && negb (contains "alpha" key).

Definition projection_key (key : string) : bool :=
  weight_key key && (contains "lora_down" key || contains "lora_up" key).

Definition unexpected_key (key : string) : bool :=
  weight_key key && negb (contains "lora_down" key) && negb (contains "lora_up" key).

(** The output key a projection key is converted to. *)
Definition target (key : string) : option string :=
  if weight_key key then
    let module_name := module_name_of (before_first_dot key) in
    if contains "lora_down" key
    then Some (diffusers_prefix ++ "." ++ module_name ++ ".lora_A.weight")
    else if contains "lora_up" key
    then Some (diffusers_prefix ++ "." ++ module_name ++ ".lora_B.weight")
    else None
  else None.

(** The lines the second loop prints for one key, given the alpha table. *)
Definition entry_lines {V} (lora_alphas : dict V) (key : string) : list string :=
  if weight_key key then
    if contains "lora_down" key || contains "lora_up" key then
      if mem (before_first_dot key) lora_alphas then []
      else ["missing alpha for " ++ before_first_dot key]
    else ["unexpected key: " ++ key ++ " in Musubi LoRA format"]
  else [].

(** The flag the first loop ends with. *)
Definition musubi_detected {tensor} (lora : dict tensor) : bool :=
  snd (scan_alphas lora).

(** The paths handed to [load_torch_file], in order. *)
Fixpoint deserializations {tensor model strength}
    (cs : list (call tensor model strength)) : list string :=
  match cs with
  | [] => []
  | LoadTorchFile path :: cs' => path :: deserializations cs'
  | _ :: cs' => deserializations cs'
  end.

(** The axis whose length a projection key is scaled by (lines 102, 105). *)
Definition axis_of (key : string) : nat :=
  if contains "lora_down" key then 0 else 1.

(** The cache holds what the deserializer gives for the cached path. *)
Definition coherent {tensor model strength} {H : Host tensor model strength}
    (s : state tensor model strength) : Prop :=
  forall path mapping,
    loaded_lora s = Some (path, mapping) -> load_torch_file path = Ok mapping.

(** ** IS_CHANGED (lines 177-180) *)

(** How an f-string renders the strength. *)
Class StrengthFormat (strength : Type) : Type := {
  format_strength : strength -> string
}.

(** [f"{lora_name}_{strength}_{blocks_type}"]; the model takes no part. *)
Definition IS_CHANGED {model strength} {F : StrengthFormat strength}
    (m : model) (lora_name : string) (s : strength) (blocks_type : string) : string :=
  lora_name ++ "_" ++ format_strength s ++ "_" ++ blocks_type.

(** ** A term model of tensors and a small host, for concrete runs *)

Module Sym.

(** A tensor is either stored in a file (a name and its shape) or built
    by the three operations the converter applies. *)
Inductive tensor : Type :=
| Leaf (name : string) (dims : list Z)
| DivInt (t : tensor) (dim : Z)
| Sqrt (t : tensor)
| Mul (t u : tensor).

Fixpoint dims_of (t : tensor) : list Z :=
  match t with
  | Leaf _ dims => dims
  | DivInt t' _ => dims_of t'
  | Sqrt t' => dims_of t'
  | Mul t' _ => dims_of t'
  end.

#[export] Instance tensor_ops : Tensor tensor := {
  shape := dims_of;
  div_int := DivInt;
  sqrt := Sqrt;
  mul := Mul
}.

(** Two files on disk; patching a model (a number here) adds the number
    of entries applied, and reports no change when there are none. *)
Definition file_a : dict tensor :=
  [("diffusion_model.single_blocks.0.linear1.lora_A.weight", Leaf "a0" [4; 8]%Z);
   ("diffusion_model.double_blocks.0.img_attn_qkv.lora_A.weight", Leaf "a1" [4; 8]%Z)].

Definition file_b : dict tensor :=
  [("transformer.single_blocks.1.linear2.lora_B.weight", Leaf "b0" [8; 4]%Z)].

#[export] Instance host : Host tensor nat Z := {
  get_full_path := fun folder name => "/models/" ++ folder ++ "/" ++ name;
  path_exists := fun path =>
    String.eqb path "/models/loras/a.safetensors" ||
    String.eqb path "/models/loras/b.safetensors";
  load_torch_file := fun path =>
    if String.eqb path "/models/loras/a.safetensors" then Ok file_a
    else if String.eqb path "/models/loras/b.safetensors" then Ok file_b
    else Raise (HostError "cannot read");
  load_lora_for_models := fun m lora _ =>
    match lora with
    | [] => Ok None
    | _ => Ok (Some (m + List.length lora))
    end
}.

Definition state0 : state tensor nat Z := init.

(** A loader that has already read the first file. *)
Definition state_a : state tensor nat Z :=
  mkState [] [] (Some ("/models/loras/a.safetensors", file_a)).

(** The mapping of the worked example. *)
Definition musubi_file : dict tensor :=
  [("lora_unet_single_blocks_0_attn_qkv.lora_down.weight", Leaf "T1" [16; 3072]%Z);
   ("lora_unet_single_blocks_0_attn_qkv.lora_up.weight", Leaf "T2" [3072; 16]%Z);
   ("lora_unet_single_blocks_0_attn_qkv.alpha", Leaf "a" []%Z)].

(** Sentinel-prefixed keys and no alpha among them. *)
Definition no_alpha_file : dict tensor :=
  [("lora_unet_x.lora_down.weight", Leaf "w" [4; 8]%Z)].

(** Both naming schemes in one file. *)
Definition mixed_file : dict tensor :=
  [("diffusion_model.a.lora_A.weight", Leaf "T0" [4; 8]%Z);
   ("lora_unet_a.lora_down.weight", Leaf "T1" [4; 8]%Z);
   ("lora_unet_a.alpha", Leaf "al" []%Z)].

(** Module x has no alpha, module y has one and a key of neither role. *)
Definition partial_alpha_file : dict tensor :=
  [("lora_unet_x.lora_down.weight", Leaf "xd" [4; 8]%Z);
   ("lora_unet_x.lora_up.weight", Leaf "xu" [8; 4]%Z);
   ("lora_unet_y.bias", Leaf "yb" [8]%Z);
   ("lora_unet_y.lora_down.weight", Leaf "yd" [4; 8]%Z);
   ("lora_unet_y.alpha", Leaf "ya" []%Z)].


(** Two alphas for one module. *)
Definition two_alpha_file : dict tensor :=
  [("lora_unet_q.lora_down.weight", Leaf "qd" [4; 8]%Z);
   ("lora_unet_q.alpha", Leaf "q1" []%Z);
   ("lora_unet_q.alpha_copy", Leaf "q2" []%Z)].

(** Strengths in hundredths, rendered as a decimal fraction of 1. *)
#[export] Instance strength_format : StrengthFormat Z := {
  format_strength := fun s =>
    if Z.eqb s 100 then "1.0" else if Z.eqb s 50 then "0.5" else "0.0"
}.

End Sym.

(** * Properties *)

(** ** Strings and dictionaries *)

Lemma startswith_app (p rest : string) : startswith p (p ++ rest) = true.
Proof.
  unfold startswith.
  induction p as [|c p IH]; simpl.
  - now destruct rest.
  - destruct (ascii_dec c c) as [_|ne]; [exact IH | now elim ne].
Qed.

Lemma drop_app (p rest : string) : drop (String.length p) (p ++ rest) = rest.
Proof. induction p as [|c p IH]; simpl; auto. Qed.

Lemma startswith_split (p key : string) :
  startswith p key = true -> key = p ++ drop (String.length p) key.
Proof.
  unfold startswith.
  revert key; induction p as [|c p IH]; intros key Hp; simpl in *.
  - reflexivity.
  - destruct key as [|c' key]; simpl in Hp; [discriminate|].
    destruct (ascii_dec c c') as [->|]; [|discriminate].
    simpl. f_equal. now apply IH.
Qed.

Lemma strip_first_prefix_find (ps : list string) (key : string) :
  strip_first_prefix ps key =
  match find (fun p => startswith p key) ps with
  | Some p => drop (String.length p) key
  | None => key
  end.
Proof.
  induction ps as [|p ps IH]; simpl; [reflexivity|].
  destruct (startswith p key); [reflexivity | exact IH].
Qed.

Lemma set_fresh {V} (k : string) (v : V) (d : dict V) :
  ~ In k (keys d) -> set k v d = (d ++ [(k, v)])%list.
Proof.
  induction d as [|[k' v'] d IH]; simpl; intros Hk; [reflexivity|].
  destruct (String.eqb_spec k' k) as [->|_].
  - elim Hk; now left.
  - f_equal. apply IH. intros Hin. apply Hk. now right.
Qed.

Lemma get_set_same {V} (k : string) (v : V) (d : dict V) :
  get (set k v d) k = Some v.
Proof.
  induction d as [|[k' v'] d IH]; simpl.
  - now rewrite String.eqb_refl.
  - destruct (String.eqb_spec k' k) as [->|ne]; simpl.
    + now rewrite String.eqb_refl.
    + destruct (String.eqb_spec k' k); [contradiction | exact IH].
Qed.

Lemma get_set_other {V} (k k0 : string) (v : V) (d : dict V) :
  k <> k0 -> get (set k v d) k0 = get d k0.
Proof.
  intros ne.
  induction d as [|[k' v'] d IH]; simpl.
  - destruct (String.eqb_spec k k0); [contradiction | reflexivity].
  - destruct (String.eqb_spec k' k) as [->|ne']; simpl.
    + destruct (String.eqb_spec k k0); [contradiction | reflexivity].
    + destruct (String.eqb_spec k' k0); [reflexivity | exact IH].
Qed.

Lemma keys_set {V} (k k0 : string) (v : V) (d : dict V) :
  In k0 (keys (set k v d)) <-> k0 = k \/ In k0 (keys d).
Proof.
  unfold keys.
  induction d as [|[k' v'] d IH]; simpl.
  - intuition.
  - destruct (String.eqb_spec k' k) as [->|ne]; simpl; intuition.
Qed.

(** ** The key normaliser *)

(** C8.  A key that starts with none of the known prefixes
    ("diffusion_model.", "transformer.") is returned as it is; a key that
    starts with one of them loses exactly that prefix, once, and the rest
    is returned untouched whatever it starts with; in general the prefix
    removed is the first one of the list that matches. *)
Theorem convert_key_format_strips_first_known_prefix (key : string) :
  (startswith "diffusion_model." key = false ->
   startswith "transformer." key = false ->
   convert_key_format key = key)
  /\ (forall p rest, In p prefixes -> key = p ++ rest ->
      convert_key_format key = rest)
  /\ convert_key_format key =
     match find (fun p => startswith p key) prefixes with
     | Some p => drop (String.length p) key
     | None => key
     end.
Proof.
  split; [|split].
  - intros H1 H2. unfold convert_key_format, prefixes; simpl.
    now rewrite H1, H2.
  - intros p rest Hin ->.
    unfold convert_key_format, prefixes in *; simpl in Hin.
    destruct Hin as [<-|[<-|[]]]; cbn [strip_first_prefix].
    + now rewrite startswith_app, drop_app.
    + replace (startswith "diffusion_model." ("transformer." ++ rest))
        with false by reflexivity.
      now rewrite startswith_app, drop_app.
  - apply strip_first_prefix_find.
Qed.

Lemma convert_key_format_witness :
  convert_key_format "single_blocks.0.linear1" = "single_blocks.0.linear1"
  /\ convert_key_format "diffusion_model.transformer.x" = "transformer.x"
  /\ convert_key_format "transformer.transformer.x" = "transformer.x".
Proof.
  split; [|split].
  - apply (convert_key_format_strips_first_known_prefix "single_blocks.0.linear1");
      reflexivity.
  - apply (convert_key_format_strips_first_known_prefix "diffusion_model.transformer.x")
      with (p := "diffusion_model."); [simpl; auto | reflexivity].
  - apply (convert_key_format_strips_first_known_prefix "transformer.transformer.x")
      with (p := "transformer."); [simpl; auto | reflexivity].
Defined.

(** ** The block filter *)

(** For the two block selectors the loop body keeps an entry exactly when
    the selector occurs in the normalised key. *)
Lemma filter_entry_selected {V} (sel : string) (acc : dict V) (k : string) (v : V) :
  sel = "single_blocks" \/ sel = "double_blocks" ->
  filter_entry sel acc (k, v) =
  if contains sel (convert_key_format k) then set k v acc else acc.
Proof.
  intros [-> | ->]; unfold filter_entry.
  - rewrite String.eqb_refl; cbn [andb].
    change (String.eqb "single_blocks" "double_blocks") with false; cbn [andb].
    reflexivity.
  - change (String.eqb "double_blocks" "single_blocks") with false; cbn [andb].
    now rewrite String.eqb_refl.
Qed.

Lemma fold_filter_entry {V} (sel : string) (l acc : dict V) :
  sel = "single_blocks" \/ sel = "double_blocks" ->
  NoDup (keys acc ++ keys l) ->
  fold_left (filter_entry sel) l acc =
  (acc ++ filter (fun e => contains sel (convert_key_format (fst e))) l)%list.
Proof.
  intros Hsel.
  revert acc; induction l as [|[k v] l IH]; intros acc Hnd;
    cbn [fold_left filter fst].
  - now rewrite app_nil_r.
  - rewrite filter_entry_selected by assumption.
    simpl in Hnd.
    destruct (contains sel (convert_key_format k)).
    + rewrite set_fresh.
      * rewrite IH.
        -- now rewrite <- app_assoc.
        -- unfold keys in *. rewrite map_app, <- app_assoc. exact Hnd.
      * apply NoDup_remove_2 in Hnd. intros Hin. apply Hnd.
        apply in_or_app. now left.
    + apply IH. now apply NoDup_remove_1 in Hnd.
Qed.

(** C1 (as the code has it).  With the selector "single_blocks" or
    "double_blocks" the block filter returns, in the order of the input,
    exactly the entries whose normalised key contains the selector; it
    does not return the whole mapping. *)
Theorem filter_lora_keys_keeps_selected_blocks {V} (lora : dict V) (sel : string) :
  wf lora ->
  sel = "single_blocks" \/ sel = "double_blocks" ->
  filter_lora_keys lora sel =
  filter (fun e => contains sel (convert_key_format (fst e))) lora.
Proof.
  intros Hwf Hsel.
  unfold filter_lora_keys.
  replace (String.eqb sel "all") with false
    by (destruct Hsel as [-> | ->]; reflexivity).
  now rewrite fold_filter_entry.
Qed.

Lemma filter_lora_keys_keeps_selected_blocks_witness :
  wf Sym.file_a
  /\ filter_lora_keys Sym.file_a "single_blocks" =
     [("diffusion_model.single_blocks.0.linear1.lora_A.weight",
       Sym.Leaf "a0" [4; 8]%Z)].
Proof.
  assert (Hwf : wf Sym.file_a).
  { unfold wf, keys, Sym.file_a; simpl.
    repeat constructor; simpl; intuition discriminate. }
  split; [exact Hwf|].
  rewrite (filter_lora_keys_keeps_selected_blocks Sym.file_a "single_blocks" Hwf
             (or_introl eq_refl)).
  reflexivity.
Defined.

(** C1 refuted as stated: with the selector "single_blocks" the entry of
    a double block is left out, so the result is not the input. *)
Lemma filter_lora_keys_is_not_a_noop :
  filter_lora_keys Sym.file_a "single_blocks" <> Sym.file_a.
Proof. vm_compute. discriminate. Qed.

(** ** The Musubi converter *)

Section Converter.

Context {tensor model strength : Type}.
Context {T : Tensor tensor} {H : Host tensor model strength}.

Implicit Types (lora l acc lora_alphas : dict tensor).
Implicit Types (st : state tensor model strength).

Lemma with_stdout_nil st : with_stdout (stdout st ++ []) st = st.
Proof. destruct st; unfold with_stdout; simpl. now rewrite app_nil_r. Qed.

Lemma with_stdout_printed line st :
  with_stdout (stdout st ++ [line]) st = printed line st.
Proof. reflexivity. Qed.

(** *** The first loop *)

Lemma scan_entry_alpha_key lora_alphas musubi key value :
  alpha_key key = false ->
  scan_entry (lora_alphas, musubi) (key, value) = (lora_alphas, musubi).
Proof.
  unfold alpha_key, scan_entry. intros Hk.
  destruct (startswith lora_unet_prefix key); [|reflexivity].
  simpl in Hk. rewrite Hk. now rewrite andb_false_r.
Qed.

(** The flag is set as soon as the table is not empty, so a key whose
    module is already in the table leaves a flag that is already set. *)
Lemma scan_flag l : forall lora_alphas musubi,
  (lora_alphas <> [] -> musubi = true) ->
  snd (fold_left scan_entry l (lora_alphas, musubi)) =
  musubi || existsb (fun e => alpha_key (fst e)) l.
Proof.
  induction l as [|[key value] l IH]; intros a b Hinv; cbn [fold_left existsb fst].
  - now rewrite orb_false_r.
  - destruct (alpha_key key) eqn:Hk.
    + unfold alpha_key in Hk. apply andb_prop in Hk as [Hp Ha].
      unfold scan_entry. rewrite Hp, Ha, andb_true_r.
      destruct (mem (before_first_dot key) a) eqn:Hm; cbn [negb].
      * assert (b = true) as ->.
        { apply Hinv. intros ->. discriminate Hm. }
        rewrite IH by reflexivity. reflexivity.
      * rewrite IH by reflexivity. now rewrite orb_true_r.
    + rewrite scan_entry_alpha_key by assumption.
      rewrite IH by assumption. reflexivity.
Qed.

Lemma musubi_detected_iff lora :
  musubi_detected lora = existsb (fun e => alpha_key (fst e)) lora.
Proof.
  unfold musubi_detected, scan_alphas.
  rewrite scan_flag; [reflexivity | congruence].
Qed.

Lemma check_for_musubi_branches lora st :
  check_for_musubi lora st =
  if musubi_detected lora
  then for_each (convert_entry (fst (scan_alphas lora))) lora []
         (printed "Loading Musubi Tuner format LoRA..." st)
  else (Ok lora, printed "Loading Diffusers format LoRA..." st).
Proof.
  unfold check_for_musubi, musubi_detected.
  destruct (scan_alphas lora) as [a [|]]; reflexivity.
Qed.

(** *** The second loop, one key at a time *)

Lemma convert_entry_run lora_alphas acc key weight st :
  convert_entry lora_alphas acc (key, weight) st =
  match target key with
  | None => (Ok acc, with_stdout (stdout st ++ entry_lines lora_alphas key) st)
  | Some new_key =>
      match nth_error (shape weight) (if contains "lora_down" key then 0 else 1) with
      | None => (Raise IndexError, st)
      | Some dim =>
          (Ok (set new_key
                 match get lora_alphas (before_first_dot key) with
                 | Some alpha => mul weight (sqrt (div_int alpha dim))
                 | None => weight
                 end acc),
           with_stdout (stdout st ++ entry_lines lora_alphas key) st)
      end
  end.
Proof.
  unfold convert_entry, target, entry_lines, weight_key, mem.
  destruct (startswith lora_unet_prefix key); cbn [andb negb];
    [|now rewrite with_stdout_nil].
  destruct (contains "alpha" key); cbn [andb negb];
    [now rewrite with_stdout_nil|].
  destruct (contains "lora_down" key); cbn [orb].
  - unfold bind, shape_at, scale_and_store.
    destruct (nth_error (shape weight) 0); [|reflexivity].
    unfold ret at 1.
    destruct (get lora_alphas (before_first_dot key)); unfold bind, ret, print.
    + now rewrite with_stdout_nil.
    + reflexivity.
  - destruct (contains "lora_up" key).
    + unfold bind, shape_at, scale_and_store.
      destruct (nth_error (shape weight) 1); [|reflexivity].
      unfold ret at 1.
      destruct (get lora_alphas (before_first_dot key)); unfold bind, ret, print.
      * now rewrite with_stdout_nil.
      * reflexivity.
    + reflexivity.
Qed.

(** *** The second loop as a whole *)

Lemma for_each_app {A S} (body : S -> A -> M S) (l1 l2 : list A) : forall (s : S) st,
  for_each body (l1 ++ l2) s st =
  match for_each body l1 s st with
  | (Ok s', st') => for_each body l2 s' st'
  | (Raise e, st') => (Raise e, st')
  end.
Proof.
  induction l1 as [|x l1 IH]; intros s st; cbn [for_each app].
  - reflexivity.
  - unfold bind. destruct (body s x st) as [[s'|e] st']; [apply IH | reflexivity].
Qed.

Lemma for_each_cons {A S} (body : S -> A -> M S) (x : A) (l : list A) (s : S) st :
  for_each body (x :: l) s st =
  match body s x st with
  | (Ok s', st') => for_each body l s' st'
  | (Raise e, st') => (Raise e, st')
  end.
Proof. reflexivity. Qed.

(** A key that is not converted leaves the output as it is. *)
Lemma convert_entry_no_target lora_alphas acc key weight st :
  target key = None ->
  convert_entry lora_alphas acc (key, weight) st =
  (Ok acc, with_stdout (stdout st ++ entry_lines lora_alphas key) st).
Proof. intros Ht. now rewrite convert_entry_run, Ht. Qed.

Lemma not_sentinel_no_target key : sentinel_key key = false -> target key = None.
Proof. unfold sentinel_key, target, weight_key. now intros ->. Qed.

Lemma not_sentinel_no_lines {V} (a : dict V) key :
  sentinel_key key = false -> entry_lines a key = [].
Proof. unfold sentinel_key, entry_lines, weight_key. now intros ->. Qed.

Lemma not_sentinel_not_alpha key : sentinel_key key = false -> alpha_key key = false.
Proof. unfold sentinel_key, alpha_key. now intros ->. Qed.

Lemma unexpected_no_target key : unexpected_key key = true -> target key = None.
Proof.
  unfold unexpected_key, target. intros Hk.
  apply andb_prop in Hk as [Hk Hu]. apply andb_prop in Hk as [Hw Hd].
  rewrite Hw. apply negb_true_iff in Hd, Hu. now rewrite Hd, Hu.
Qed.

Lemma unexpected_lines {V} (a : dict V) key :
  unexpected_key key = true ->
  entry_lines a key = ["unexpected key: " ++ key ++ " in Musubi LoRA format"].
Proof.
  unfold unexpected_key, entry_lines. intros Hk.
  apply andb_prop in Hk as [Hk Hu]. apply andb_prop in Hk as [Hw Hd].
  rewrite Hw. apply negb_true_iff in Hd, Hu. now rewrite Hd, Hu.
Qed.

Lemma unexpected_not_alpha key : unexpected_key key = true -> alpha_key key = false.
Proof.
  unfold unexpected_key, weight_key, alpha_key. intros Hk.
  apply andb_prop in Hk as [Hk _]. apply andb_prop in Hk as [Hk _].
  apply andb_prop in Hk as [-> Ha]. apply negb_true_iff in Ha. now rewrite Ha.
Qed.

(** What a completed run of the loop has printed. *)
Lemma for_each_convert_stdout lora_alphas l : forall acc st out st',
  for_each (convert_entry lora_alphas) l acc st = (Ok out, st') ->
  st' = with_stdout
          (stdout st ++ flat_map (fun e => entry_lines lora_alphas (fst e)) l) st.
Proof.
  induction l as [|[key weight] l IH]; intros acc st out st' Hrun.
  - cbn in Hrun. injection Hrun as _ <-. cbn [flat_map]. now rewrite with_stdout_nil.
  - rewrite for_each_cons, convert_entry_run in Hrun.
    cbn [flat_map fst]. rewrite app_assoc.
    destruct (target key).
    + destruct (nth_error (shape weight) _); [|discriminate].
      apply IH in Hrun. exact Hrun.
    + apply IH in Hrun. exact Hrun.
Qed.

(** The output, or the exception, does not depend on what was printed
    before. *)
Lemma for_each_convert_frame lora_alphas l : forall acc st1 st2,
  fst (for_each (convert_entry lora_alphas) l acc st1) =
  fst (for_each (convert_entry lora_alphas) l acc st2).
Proof.
  induction l as [|[key weight] l IH]; intros acc st1 st2.
  - reflexivity.
  - rewrite !for_each_cons, !convert_entry_run.
    destruct (target key).
    + destruct (nth_error (shape weight) _); [apply IH | reflexivity].
    + apply IH.
Qed.

(** An output key that none of the keys is converted to keeps its value. *)
Lemma for_each_convert_get lora_alphas new_key l : forall acc st out st',
  for_each (convert_entry lora_alphas) l acc st = (Ok out, st') ->
  (forall e, In e l -> target (fst e) <> Some new_key) ->
  get out new_key = get acc new_key.
Proof.
  induction l as [|[key weight] l IH]; intros acc st out st' Hrun Hl.
  - cbn in Hrun. now injection Hrun as <- _.
  - rewrite for_each_cons, convert_entry_run in Hrun.
    assert (Hk : target key <> Some new_key) by (apply (Hl (key, weight)); now left).
    assert (Hl' : forall e, In e l -> target (fst e) <> Some new_key)
      by (intros e He; apply Hl; now right).
    destruct (target key) as [nk|].
    + destruct (nth_error (shape weight) _); [|discriminate].
      rewrite (IH _ _ _ _ Hrun Hl'). apply get_set_other. congruence.
    + exact (IH _ _ _ _ Hrun Hl').
Qed.

(** Every key of the output is the converted name of some key. *)
Lemma for_each_convert_keys lora_alphas l : forall acc st out st',
  for_each (convert_entry lora_alphas) l acc st = (Ok out, st') ->
  forall new_key, In new_key (keys out) ->
  In new_key (keys acc) \/ exists e, In e l /\ target (fst e) = Some new_key.
Proof.
  induction l as [|[key weight] l IH]; intros acc st out st' Hrun nk Hin.
  - cbn in Hrun. injection Hrun as <- _. now left.
  - rewrite for_each_cons, convert_entry_run in Hrun.
    destruct (target key) as [nk'|] eqn:Ht.
    + destruct (nth_error (shape weight) _); [|discriminate].
      destruct (IH _ _ _ _ Hrun nk Hin) as [Hacc | (e & He & Hte)].
      * apply keys_set in Hacc as [-> | Hacc]; [|now left].
        right. exists (key, weight). split; [now left | exact Ht].
      * right. exists e. split; [now right | exact Hte].
    + destruct (IH _ _ _ _ Hrun nk Hin) as [Hacc | (e & He & Hte)]; [now left|].
      right. exists e. split; [now right | exact Hte].
Qed.

(** Keys without the sentinel prefix are invisible to both loops. *)
Lemma scan_ignores_others l : forall (a : dict tensor * bool),
  fold_left scan_entry (filter (fun e => sentinel_key (fst e)) l) a =
  fold_left scan_entry l a.
Proof.
  induction l as [|[key value] l IH]; intros [a b]; cbn [filter fold_left fst].
  - reflexivity.
  - destruct (sentinel_key key) eqn:Hs; cbn [fold_left].
    + apply IH.
    + rewrite (scan_entry_alpha_key a b key value (not_sentinel_not_alpha _ Hs)).
      apply IH.
Qed.

Lemma for_each_convert_ignores_others lora_alphas l : forall acc st,
  for_each (convert_entry lora_alphas) (filter (fun e => sentinel_key (fst e)) l) acc st =
  for_each (convert_entry lora_alphas) l acc st.
Proof.
  induction l as [|[key weight] l IH]; intros acc st; cbn [filter fst].
  - reflexivity.
  - destruct (sentinel_key key) eqn:Hs.
    + rewrite !for_each_cons.
      destruct (convert_entry lora_alphas acc (key, weight) st) as [[acc'|e] st'];
        [apply IH | reflexivity].
    + rewrite (for_each_cons _ (key, weight)).
      rewrite convert_entry_no_target by now apply not_sentinel_no_target.
      rewrite not_sentinel_no_lines, with_stdout_nil by assumption.
      apply IH.
Qed.

(** *** Format detection *)

Lemma existsb_alpha_key_true lora :
  (exists key, In key (keys lora) /\
     startswith lora_unet_prefix key = true /\ contains "alpha" key = true) ->
  existsb (fun e => alpha_key (fst e)) lora = true.
Proof.
  intros (key & Hin & Hp & Ha).
  apply existsb_exists. unfold keys in Hin. apply in_map_iff in Hin as (e & <- & He).
  exists e. split; [exact He|]. unfold alpha_key. now rewrite Hp, Ha.
Qed.

Lemma existsb_alpha_key_false lora :
  (forall key, In key (keys lora) ->
     startswith lora_unet_prefix key = true -> contains "alpha" key = false) ->
  existsb (fun e => alpha_key (fst e)) lora = false.
Proof.
  intros Hall.
  destruct (existsb _ lora) eqn:Hex; [|reflexivity].
  apply existsb_exists in Hex as (e & He & Hk).
  unfold alpha_key in Hk. apply andb_prop in Hk as [Hp Ha].
  rewrite (Hall (fst e)) in Ha; [discriminate | now apply in_map | exact Hp].
Qed.

(** C2 (as the code has it).  The converter takes the conversion branch
    exactly when some key starts with "lora_unet_" and also contains
    "alpha": with such a key it announces the Musubi format and runs the
    conversion loop over the mapping; when no sentinel-prefixed key
    contains "alpha" (in particular when no key has the prefix) it
    announces the Diffusers format and returns the input unchanged. *)
Theorem check_for_musubi_detects_alpha_keys lora st :
  ((exists key, In key (keys lora) /\
      startswith lora_unet_prefix key = true /\ contains "alpha" key = true) ->
   check_for_musubi lora st =
   for_each (convert_entry (fst (scan_alphas lora))) lora []
     (printed "Loading Musubi Tuner format LoRA..." st))
  /\
  ((forall key, In key (keys lora) ->
      startswith lora_unet_prefix key = true -> contains "alpha" key = false) ->
   check_for_musubi lora st =
   (Ok lora, printed "Loading Diffusers format LoRA..." st)).
Proof.
  split; intros Hk; rewrite check_for_musubi_branches, musubi_detected_iff.
  - now rewrite existsb_alpha_key_true.
  - now rewrite existsb_alpha_key_false.
Qed.

(** C5.  A mapping none of whose keys starts with "lora_unet_" is
    returned unchanged: the same entries in the same order. *)
Theorem check_for_musubi_identity_on_diffusers lora st :
  (forall key, In key (keys lora) -> startswith lora_unet_prefix key = false) ->
  check_for_musubi lora st =
  (Ok lora, printed "Loading Diffusers format LoRA..." st).
Proof.
  intros Hk.
  rewrite check_for_musubi_branches, musubi_detected_iff.
  rewrite existsb_alpha_key_false; [reflexivity|].
  intros key Hin Hp. rewrite (Hk key Hin) in Hp. discriminate.
Qed.

(** *** The worked example *)

(** C3.  The mapping with the down-projection, the up-projection and the
    alpha of the module "lora_unet_single_blocks_0_attn_qkv" is converted
    to exactly two entries, lora_A with T1 times sqrt(a / d1) and lora_B
    with T2 times sqrt(a / d2), d1 the first axis of T1 and d2 the second
    axis of T2. *)
Theorem check_for_musubi_single_block_example (T1 T2 a : tensor) (d1 d2 : Z) st :
  nth_error (shape T1) 0 = Some d1 ->
  nth_error (shape T2) 1 = Some d2 ->
  check_for_musubi
    [("lora_unet_single_blocks_0_attn_qkv.lora_down.weight", T1);
     ("lora_unet_single_blocks_0_attn_qkv.lora_up.weight", T2);
     ("lora_unet_single_blocks_0_attn_qkv.alpha", a)] st =
  (Ok [("diffusion_model.single_blocks.0.attn_qkv.lora_A.weight",
        mul T1 (sqrt (div_int a d1)));
       ("diffusion_model.single_blocks.0.attn_qkv.lora_B.weight",
        mul T2 (sqrt (div_int a d2)))],
   printed "Loading Musubi Tuner format LoRA..." st).
Proof.
  intros H1 H2.
  rewrite check_for_musubi_branches.
  change (musubi_detected _) with true; cbv iota.
  change (fst (scan_alphas _)) with [("lora_unet_single_blocks_0_attn_qkv", a)].
  rewrite for_each_cons, convert_entry_run.
  change (target _)
    with (Some "diffusion_model.single_blocks.0.attn_qkv.lora_A.weight").
  change (contains "lora_down" _) with true; cbv iota.
  rewrite H1.
  change (entry_lines _ _) with (@nil string). rewrite with_stdout_nil.
  rewrite for_each_cons, convert_entry_run.
  change (target _)
    with (Some "diffusion_model.single_blocks.0.attn_qkv.lora_B.weight").
  change (contains "lora_down" _) with false; cbv iota.
  rewrite H2.
  change (entry_lines _ _) with (@nil string). rewrite with_stdout_nil.
  rewrite for_each_cons, convert_entry_run.
  change (target _) with (@None string); cbv iota.
  change (entry_lines _ _) with (@nil string). rewrite with_stdout_nil.
  reflexivity.
Qed.

(** *** Keys that are skipped *)

Local Open Scope list_scope.

Lemma scan_alphas_without l1 key weight l2 :
  alpha_key key = false ->
  scan_alphas (l1 ++ (key, weight) :: l2) = scan_alphas (l1 ++ l2).
Proof.
  intros Hk. unfold scan_alphas. rewrite !fold_left_app. cbn [fold_left].
  destruct (fold_left scan_entry l1 ([], false)) as [a b].
  now rewrite scan_entry_alpha_key.
Qed.

(** C7.  In a conversion, a key with the sentinel prefix and without
    "alpha" that contains neither "lora_down" nor "lora_up" is skipped:
    the outcome (the output mapping, or the exception of another key) is
    that of the mapping without it, and when the conversion completes
    the printed lines are those of the mapping without it with the one
    line "unexpected key: ... in Musubi LoRA format" put in. *)
Theorem check_for_musubi_skips_unexpected_key l1 key weight l2 st :
  unexpected_key key = true ->
  musubi_detected (l1 ++ (key, weight) :: l2) = true ->
  fst (check_for_musubi (l1 ++ (key, weight) :: l2) st) =
  fst (check_for_musubi (l1 ++ l2) st)
  /\
  (forall out st',
     check_for_musubi (l1 ++ (key, weight) :: l2) st = (Ok out, st') ->
     exists before after,
       stdout st' =
       before ++ ["unexpected key: " ++ key ++ " in Musubi LoRA format"]%string ++ after
       /\ stdout (snd (check_for_musubi (l1 ++ l2) st)) = before ++ after).
Proof.
  intros Hu Hm.
  pose proof (scan_alphas_without l1 key weight l2 (unexpected_not_alpha _ Hu)) as Hscan.
  assert (Hm' : musubi_detected (l1 ++ l2) = true)
    by (unfold musubi_detected in *; now rewrite <- Hscan).
  rewrite !check_for_musubi_branches, Hm, Hm', <- Hscan.
  set (a := fst (scan_alphas (l1 ++ (key, weight) :: l2))).
  set (st0 := printed "Loading Musubi Tuner format LoRA..." st).
  rewrite !for_each_app.
  destruct (for_each (convert_entry a) l1 [] st0) as [[acc1|e] st1].
  - rewrite for_each_cons, convert_entry_no_target by now apply unexpected_no_target.
    rewrite unexpected_lines by assumption.
    set (st1' := with_stdout _ st1).
    pose proof (for_each_convert_frame a l2 acc1 st1' st1) as Hframe.
    split; [exact Hframe|].
    intros out st' Hrun.
    destruct (for_each (convert_entry a) l2 acc1 st1) as [r st''] eqn:Hrun'.
    rewrite Hrun in Hframe. cbn [fst] in Hframe. subst r.
    apply for_each_convert_stdout in Hrun, Hrun'.
    exists (stdout st1), (flat_map (fun e => entry_lines a (fst e)) l2).
    subst st' st''. unfold st1', with_stdout; cbn [stdout snd].
    split; [now rewrite <- app_assoc | reflexivity].
  - split; [reflexivity | discriminate].
Qed.

(** C9 (as the code has it).  In a conversion the keys without the
    sentinel prefix are dropped without a word: the outcome and the
    printed lines are those of the mapping with these keys removed, and
    every output key is the converted name of a sentinel-prefixed key of
    the input (so the name of a dropped key is in the output only when
    another key is converted to it). *)
Theorem check_for_musubi_drops_other_keys lora st :
  musubi_detected lora = true ->
  check_for_musubi lora st =
  check_for_musubi (filter (fun e => sentinel_key (fst e)) lora) st
  /\
  (forall out st', check_for_musubi lora st = (Ok out, st') ->
   forall new_key, In new_key (keys out) ->
   exists key weight,
     In (key, weight) lora /\ sentinel_key key = true /\ target key = Some new_key).
Proof.
  intros Hm.
  assert (Hscan : scan_alphas (filter (fun e => sentinel_key (fst e)) lora) =
                  scan_alphas lora) by apply scan_ignores_others.
  split.
  - rewrite !check_for_musubi_branches. unfold musubi_detected. rewrite Hscan.
    fold (musubi_detected lora). rewrite Hm.
    now rewrite for_each_convert_ignores_others.
  - intros out st' Hrun nk Hin.
    rewrite check_for_musubi_branches, Hm in Hrun.
    destruct (for_each_convert_keys _ _ _ _ _ _ Hrun nk Hin) as [[] | ([key weight] & He & Ht)].
    exists key, weight. split; [exact He|]. split; [|exact Ht].
    cbn [fst] in Ht. unfold target, weight_key in Ht. unfold sentinel_key.
    destruct (startswith lora_unet_prefix key); [reflexivity | discriminate].
Qed.

(** *** Modules without an alpha *)

Lemma append_cancel_l (p a b : string) : (p ++ a = p ++ b)%string -> a = b.
Proof.
  induction p as [|c p IH]; simpl; intros Heq; [exact Heq|].
  injection Heq as Heq. now apply IH.
Qed.

(** How often one key prints the line of a module that has no alpha. *)
Lemma missing_alpha_line_count lora_alphas name key :
  mem name lora_alphas = false ->
  count_occ string_dec (entry_lines lora_alphas key)
    ("missing alpha for " ++ name)%string =
  if projection_key key && String.eqb (before_first_dot key) name then 1 else 0.
Proof.
  intros Hmem. unfold entry_lines, projection_key.
  destruct (weight_key key); cbn [andb]; [|reflexivity].
  destruct (contains "lora_down" key || contains "lora_up" key); cbn [andb].
  - destruct (String.eqb_spec (before_first_dot key) name) as [-> | ne].
    + rewrite Hmem. cbn [count_occ].
      destruct (string_dec _ _) as [_|ne]; [reflexivity | now elim ne].
    + destruct (mem (before_first_dot key) lora_alphas); [reflexivity|].
      cbn [count_occ].
      destruct (string_dec _ _) as [Heq|_]; [|reflexivity].
      apply append_cancel_l in Heq. contradiction.
  - cbn [count_occ].
    destruct (string_dec _ _) as [Heq|_]; [|reflexivity].
    simpl in Heq. discriminate Heq.
Qed.

Lemma missing_alpha_lines_count lora_alphas name l :
  mem name lora_alphas = false ->
  count_occ string_dec (flat_map (fun e => entry_lines lora_alphas (fst e)) l)
    ("missing alpha for " ++ name)%string =
  length (filter (fun e => projection_key (fst e) &&
                           String.eqb (before_first_dot (fst e)) name) l).
Proof.
  intros Hmem.
  induction l as [|[key weight] l IH]; cbn [flat_map filter fst]; [reflexivity|].
  rewrite count_occ_app, IH, missing_alpha_line_count by assumption.
  now destruct (projection_key key && String.eqb (before_first_dot key) name).
Qed.

(** C6 (as the code has it).  In a conversion that completes, for a
    module with no alpha in the table: the line "missing alpha for
    <module>" is printed once for each projection key of the module (not
    once for the module), and each projection weight of the module is in
    the output as it was in the input, under its converted name, unless a
    later key is converted to the same name. *)
Theorem check_for_musubi_missing_alpha lora name st out st' :
  musubi_detected lora = true ->
  mem name (fst (scan_alphas lora)) = false ->
  check_for_musubi lora st = (Ok out, st') ->
  count_occ string_dec (stdout st') ("missing alpha for " ++ name)%string =
  count_occ string_dec (stdout st) ("missing alpha for " ++ name)%string +
  length (filter (fun e => projection_key (fst e) &&
                           String.eqb (before_first_dot (fst e)) name) lora)
  /\
  (forall l1 key weight l2 new_key,
     lora = l1 ++ (key, weight) :: l2 ->
     before_first_dot key = name ->
     target key = Some new_key ->
     (forall e, In e l2 -> target (fst e) <> Some new_key) ->
     get out new_key = Some weight).
Proof.
  intros Hm Hmem Hrun.
  rewrite check_for_musubi_branches, Hm in Hrun.
  set (a := fst (scan_alphas lora)) in *.
  split.
  - apply for_each_convert_stdout in Hrun. subst st'.
    unfold with_stdout, printed; cbn [stdout].
    rewrite !count_occ_app, missing_alpha_lines_count by assumption.
    cbn [count_occ].
    destruct (string_dec _ _) as [Heq|_]; [discriminate Heq | lia].
  - intros l1 key weight l2 nk -> Hname Ht Hl2.
    rewrite for_each_app in Hrun.
    destruct (for_each (convert_entry a) l1 [] _) as [[acc1|e] st1];
      [|discriminate].
    rewrite for_each_cons, convert_entry_run, Ht in Hrun.
    destruct (nth_error (shape weight) _) as [dim|]; [|discriminate].
    unfold mem in Hmem. rewrite Hname in Hrun.
    destruct (get a name); [discriminate|].
    rewrite (for_each_convert_get _ nk _ _ _ _ _ Hrun Hl2).
    apply get_set_same.
Qed.

(** The table has a module exactly when one of its alpha keys is in the
    mapping. *)
Lemma mem_set {V} (k k0 : string) (v : V) (d : dict V) :
  mem k0 (set k v d) = String.eqb k k0 || mem k0 d.
Proof.
  unfold mem.
  destruct (String.eqb_spec k k0) as [-> | ne].
  - now rewrite get_set_same.
  - now rewrite get_set_other.
Qed.

Lemma scan_table_mem name l : forall lora_alphas musubi,
  mem name (fst (fold_left scan_entry l (lora_alphas, musubi))) =
  mem name lora_alphas ||
  existsb (fun e => alpha_key (fst e) && String.eqb (before_first_dot (fst e)) name) l.
Proof.
  induction l as [|[key value] l IH]; intros a b; cbn [fold_left existsb fst].
  - now rewrite orb_false_r.
  - destruct (alpha_key key) eqn:Hk; cbn [andb].
    + unfold alpha_key in Hk. apply andb_prop in Hk as [Hp Ha].
      unfold scan_entry. rewrite Hp, Ha, andb_true_r.
      destruct (mem (before_first_dot key) a) eqn:Hm; cbn [negb]; rewrite IH.
      * destruct (String.eqb_spec (before_first_dot key) name) as [<- | ne];
          [now rewrite Hm | reflexivity].
      * rewrite mem_set.
        now destruct (String.eqb (before_first_dot key) name), (mem name a).
    + rewrite scan_entry_alpha_key by assumption. apply IH.
Qed.

Lemma scan_alphas_mem name lora :
  mem name (fst (scan_alphas lora)) =
  existsb (fun e => alpha_key (fst e) && String.eqb (before_first_dot (fst e)) name) lora.
Proof. unfold scan_alphas. now rewrite scan_table_mem. Qed.

(** The converter only prints. *)
Lemma for_each_convert_state lora_alphas l : forall acc st,
  exists lines,
    snd (for_each (convert_entry lora_alphas) l acc st) = with_stdout lines st.
Proof.
  induction l as [|[key weight] l IH]; intros acc st.
  - exists (stdout st). now destruct st.
  - rewrite for_each_cons, convert_entry_run.
    destruct (target key).
    + destruct (nth_error (shape weight) _).
      * match goal with
        | |- context [for_each _ l ?acc' ?st'] =>
            destruct (IH acc' st') as (lines & ->)
        end.
        now exists lines.
      * exists (stdout st). now destruct st.
    + destruct (IH acc (with_stdout (stdout st ++ entry_lines lora_alphas key) st))
        as (lines & ->).
      now exists lines.
Qed.

Lemma check_for_musubi_state lora st :
  exists lines, snd (check_for_musubi lora st) = with_stdout lines st.
Proof.
  rewrite check_for_musubi_branches.
  destruct (musubi_detected lora).
  - destruct (for_each_convert_state (fst (scan_alphas lora)) lora []
                (printed "Loading Musubi Tuner format LoRA..." st)) as (lines & ->).
    now exists lines.
  - now exists (stdout st ++ ["Loading Diffusers format LoRA..."]).
Qed.

End Converter.

(** ** The load cache and the public operation *)

Section Cache.

Context {tensor model strength : Type}.
Context {T : Tensor tensor} {H : Host tensor model strength}.

Implicit Types (st : state tensor model strength).

Local Open Scope list_scope.

Lemma deserializations_app (cs1 cs2 : list (call tensor model strength)) :
  deserializations (cs1 ++ cs2) = deserializations cs1 ++ deserializations cs2.
Proof.
  induction cs1 as [|c cs1 IH]; cbn [app deserializations]; [reflexivity|].
  destruct c; cbn [app]; now rewrite IH.
Qed.

Lemma load_cached_hit path mapping st :
  loaded_lora st = Some (path, mapping) ->
  load_cached path st = (Ok mapping, st).
Proof.
  intros Hc. unfold load_cached, bind, get_loaded_lora.
  rewrite Hc, String.eqb_refl. unfold ret. now rewrite Hc.
Qed.

Lemma load_cached_reload path st :
  (forall mapping, loaded_lora st <> Some (path, mapping)) ->
  load_cached path st =
  match load_torch_file path with
  | Ok fresh =>
      (Ok fresh,
       mkState (stdout st) (calls st ++ [LoadTorchFile path]) (Some (path, fresh)))
  | Raise e =>
      (Raise e, mkState (stdout st) (calls st ++ [LoadTorchFile path]) None)
  end.
Proof.
  intros Hc. unfold load_cached, bind, get_loaded_lora.
  destruct (loaded_lora st) as [[path0 mapping0]|] eqn:Hst.
  - destruct (String.eqb_spec path0 path) as [-> | ne].
    + now elim (Hc mapping0).
    + unfold set_loaded_lora, ret, record_call, lift; cbn.
      now destruct (load_torch_file path).
  - unfold ret. rewrite Hst.
    unfold set_loaded_lora, ret, record_call, lift; cbn.
    destruct (load_torch_file path); [reflexivity | now rewrite Hst].
Qed.

(** After the cache stage the public operation reads no file and leaves
    the cache alone. *)
Lemma load_lora_after_cache m name s blocks_type st :
  name <> ""%string ->
  path_exists (get_full_path "loras" name) = true ->
  let path := get_full_path "loras" name in
  let st0 := mkState (stdout st)
               ((calls st ++ [GetFullPath "loras" name]) ++ [PathExists path])
               (loaded_lora st) in
  let st1 := snd (load_cached path st0) in
  let st' := snd (load_lora m name s blocks_type st) in
  loaded_lora st' = loaded_lora st1
  /\ deserializations (calls st') = deserializations (calls st1).
Proof.
  intros Hname Hex. cbv zeta.
  destruct name as [|c name]; [now elim Hname|].
  unfold load_lora, bind, record_call; cbn [stdout calls loaded_lora].
  rewrite Hex; cbn [negb].
  destruct (load_cached _ _) as [[lora|e] st1]; cbn [snd]; [|now split].
  destruct (check_for_musubi_state lora st1) as (lines & Hs).
  destruct (check_for_musubi lora st1) as [[diffusers_lora|e] st2];
    cbn [snd] in Hs; subst st2; unfold with_stdout; cbn [snd]; [|now split].
  unfold lift, ret.
  destruct (load_lora_for_models _ _ _) as [[m'|]|e];
    cbn [snd stdout calls loaded_lora];
    (split; [reflexivity|]);
    rewrite deserializations_app; cbn [deserializations]; apply app_nil_r.
Qed.

(** C4.  A request for the path the cache holds returns the cached
    mapping and changes nothing: no file is read.  A request for another
    path reads the file exactly once; the old entry is gone, and when the
    read succeeds the cache holds the requested path with the mapping
    just read, which is the one returned.  The public operation adds no
    read and no cache update of its own. *)
Theorem load_lora_single_slot_cache path st :
  (forall mapping,
     loaded_lora st = Some (path, mapping) ->
     load_cached path st = (Ok mapping, st))
  /\
  (forall path0 mapping0,
     loaded_lora st = Some (path0, mapping0) -> path0 <> path ->
     load_cached path st =
     match load_torch_file path with
     | Ok fresh =>
         (Ok fresh,
          mkState (stdout st) (calls st ++ [LoadTorchFile path]) (Some (path, fresh)))
     | Raise e =>
         (Raise e, mkState (stdout st) (calls st ++ [LoadTorchFile path]) None)
     end)
  /\
  (forall m name s blocks_type,
     name <> ""%string ->
     get_full_path "loras" name = path ->
     path_exists path = true ->
     let st' := snd (load_lora m name s blocks_type st) in
     (forall mapping,
        loaded_lora st = Some (path, mapping) ->
        loaded_lora st' = Some (path, mapping)
        /\ deserializations (calls st') = deserializations (calls st))
     /\
     (forall path0 mapping0 fresh,
        loaded_lora st = Some (path0, mapping0) -> path0 <> path ->
        load_torch_file path = Ok fresh ->
        loaded_lora st' = Some (path, fresh)
        /\ deserializations (calls st') = deserializations (calls st) ++ [path])).
Proof.
  split; [|split].
  - intros mapping. apply load_cached_hit.
  - intros path0 mapping0 Hc ne. apply load_cached_reload.
    intros mapping Hc'. rewrite Hc in Hc'. congruence.
  - intros m name s blocks_type Hname Hpath Hex. cbv zeta.
    rewrite <- Hpath in Hex.
    destruct (load_lora_after_cache m name s blocks_type st Hname Hex) as [Hl Hd].
    cbv zeta in Hl, Hd. rewrite Hpath in Hl, Hd. rewrite Hl, Hd.
    split.
    + intros mapping Hc.
      rewrite (load_cached_hit path mapping) by exact Hc. cbn [snd loaded_lora calls].
      split; [exact Hc|].
      rewrite !deserializations_app; cbn [deserializations].
      now rewrite !app_nil_r.
    + intros path0 mapping0 fresh Hc ne Hload.
      rewrite load_cached_reload.
      * rewrite Hload. cbn [snd loaded_lora calls].
        split; [reflexivity|].
        rewrite !deserializations_app; cbn [deserializations].
        now rewrite !app_nil_r.
      * cbn [loaded_lora]. intros mapping Hc'. rewrite Hc in Hc'. congruence.
Qed.

(** C10.  With an empty name the public operation returns the model it
    was given and leaves the loader as it was: nothing is resolved, read,
    cached, printed or applied. *)
Theorem load_lora_empty_name m s blocks_type st :
  load_lora m "" s blocks_type st = (Ok m, st).
Proof. reflexivity. Qed.

End Cache.

(** ** Concrete runs *)

Section Runs.

Import Sym.
Local Open Scope list_scope.

Lemma check_for_musubi_detects_alpha_keys_witness :
  check_for_musubi musubi_file state0 =
  for_each (convert_entry (fst (scan_alphas musubi_file))) musubi_file []
    (printed "Loading Musubi Tuner format LoRA..." state0)
  /\ check_for_musubi no_alpha_file state0 =
     (Ok no_alpha_file, printed "Loading Diffusers format LoRA..." state0).
Proof.
  split.
  - apply (proj1 (check_for_musubi_detects_alpha_keys musubi_file state0)).
    exists "lora_unet_single_blocks_0_attn_qkv.alpha"%string.
    split; [simpl; auto | split; reflexivity].
  - apply (proj2 (check_for_musubi_detects_alpha_keys no_alpha_file state0)).
    intros key [<- | []] _. reflexivity.
Defined.

(** C2 refuted as stated: a mapping with a key that starts with
    "lora_unet_" and no alpha is not converted; it is returned as it is. *)
Lemma check_for_musubi_sentinel_alone_not_converted :
  In "lora_unet_x.lora_down.weight"%string (keys no_alpha_file)
  /\ startswith lora_unet_prefix "lora_unet_x.lora_down.weight" = true
  /\ check_for_musubi no_alpha_file state0 =
     (Ok no_alpha_file, printed "Loading Diffusers format LoRA..." state0)
  /\ check_for_musubi no_alpha_file state0 <>
     for_each (convert_entry (fst (scan_alphas no_alpha_file))) no_alpha_file []
       (printed "Loading Musubi Tuner format LoRA..." state0).
Proof.
  split; [simpl; auto|]. split; [reflexivity|]. split; [reflexivity|].
  vm_compute. discriminate.
Qed.

Lemma check_for_musubi_identity_on_diffusers_witness :
  check_for_musubi file_a state0 =
  (Ok file_a, printed "Loading Diffusers format LoRA..." state0).
Proof.
  apply (check_for_musubi_identity_on_diffusers file_a state0).
  intros key [<- | [<- | []]]; reflexivity.
Defined.

Lemma check_for_musubi_single_block_example_witness :
  check_for_musubi musubi_file state0 =
  (Ok [("diffusion_model.single_blocks.0.attn_qkv.lora_A.weight"%string,
        Mul (Leaf "T1" [16; 3072]%Z) (Sqrt (DivInt (Leaf "a" []) 16)));
       ("diffusion_model.single_blocks.0.attn_qkv.lora_B.weight"%string,
        Mul (Leaf "T2" [3072; 16]%Z) (Sqrt (DivInt (Leaf "a" []) 16)))],
   printed "Loading Musubi Tuner format LoRA..." state0).
Proof.
  exact (check_for_musubi_single_block_example
           (Leaf "T1" [16; 3072]%Z) (Leaf "T2" [3072; 16]%Z) (Leaf "a" [])
           16%Z 16%Z state0 eq_refl eq_refl).
Defined.

Lemma check_for_musubi_skips_unexpected_key_witness :
  fst (check_for_musubi partial_alpha_file state0) =
  fst (check_for_musubi
         (firstn 2 partial_alpha_file ++ skipn 3 partial_alpha_file) state0)
  /\ exists before after,
       stdout (snd (check_for_musubi partial_alpha_file state0)) =
       before ++ ["unexpected key: lora_unet_y.bias in Musubi LoRA format"%string]
              ++ after
       /\ stdout (snd (check_for_musubi
                         (firstn 2 partial_alpha_file ++ skipn 3 partial_alpha_file)
                         state0)) = before ++ after.
Proof.
  destruct (check_for_musubi_skips_unexpected_key
              (firstn 2 partial_alpha_file) "lora_unet_y.bias" (Leaf "yb" [8]%Z)
              (skipn 3 partial_alpha_file) state0 eq_refl eq_refl) as [Hout Hlines].
  split; [exact Hout|].
  eapply Hlines. vm_compute. reflexivity.
Defined.

Lemma check_for_musubi_drops_other_keys_witness :
  check_for_musubi mixed_file state0 =
  check_for_musubi (filter (fun e => sentinel_key (fst e)) mixed_file) state0.
Proof.
  exact (proj1 (check_for_musubi_drops_other_keys mixed_file state0 eq_refl)).
Defined.

(** C9 refuted as stated: the key "diffusion_model.a.lora_A.weight" of
    the input has no sentinel prefix, and it is a key of the output,
    where it carries the converted weight of "lora_unet_a". *)
Lemma check_for_musubi_dropped_name_in_output :
  In "diffusion_model.a.lora_A.weight"%string (keys mixed_file)
  /\ startswith lora_unet_prefix "diffusion_model.a.lora_A.weight" = false
  /\ check_for_musubi mixed_file state0 =
     (Ok [("diffusion_model.a.lora_A.weight"%string,
           Mul (Leaf "T1" [4; 8]%Z) (Sqrt (DivInt (Leaf "al" []) 4)))],
      printed "Loading Musubi Tuner format LoRA..." state0).
Proof. split; [simpl; auto|]. split; reflexivity. Qed.

Lemma check_for_musubi_missing_alpha_witness :
  count_occ string_dec (stdout (snd (check_for_musubi partial_alpha_file state0)))
    "missing alpha for lora_unet_x"%string = 2
  /\ (forall out, fst (check_for_musubi partial_alpha_file state0) = Ok out ->
      get out "diffusion_model.x.lora_B.weight" = Some (Leaf "xu" [8; 4]%Z)).
Proof.
  pose (r := check_for_musubi partial_alpha_file state0).
  assert (Hr : exists out, r = (Ok out, snd r)) by (eexists; vm_compute; reflexivity).
  destruct Hr as (out & Hr).
  destruct (check_for_musubi_missing_alpha partial_alpha_file "lora_unet_x"
              state0 out (snd r) eq_refl eq_refl Hr) as [Hcount Hget].
  split.
  - exact Hcount.
  - intros out' Hout. fold r in Hout. rewrite Hr in Hout. injection Hout as <-.
    apply (Hget (firstn 1 partial_alpha_file) "lora_unet_x.lora_up.weight"%string
             (Leaf "xu" [8; 4]%Z) (skipn 2 partial_alpha_file)
             "diffusion_model.x.lora_B.weight"%string);
      try reflexivity.
    intros e [<- | [<- | [<- | []]]]; vm_compute; discriminate.
Defined.

(** C6 refuted as stated: module "lora_unet_x" has no alpha and two
    projection weights, and its diagnostic is printed twice. *)
Lemma check_for_musubi_missing_alpha_printed_per_weight :
  mem "lora_unet_x" (fst (scan_alphas partial_alpha_file)) = false
  /\ stdout (snd (check_for_musubi partial_alpha_file state0)) =
     ["Loading Musubi Tuner format LoRA...";
      "missing alpha for lora_unet_x";
      "missing alpha for lora_unet_x";
      "unexpected key: lora_unet_y.bias in Musubi LoRA format"]%string
  /\ count_occ string_dec (stdout (snd (check_for_musubi partial_alpha_file state0)))
       "missing alpha for lora_unet_x"%string <> 1.
Proof. split; [reflexivity|]. split; [reflexivity|]. vm_compute. discriminate. Qed.

Lemma load_lora_single_slot_cache_witness :
  load_cached "/models/loras/a.safetensors" state_a = (Ok file_a, state_a)
  /\ load_cached "/models/loras/b.safetensors" state_a =
     (Ok file_b,
      mkState [] [LoadTorchFile "/models/loras/b.safetensors"]
        (Some ("/models/loras/b.safetensors"%string, file_b)))
  /\ deserializations
       (calls (snd (load_lora 5 "a.safetensors" 1%Z "all" state_a))) = []
  /\ deserializations
       (calls (snd (load_lora 5 "b.safetensors" 1%Z "all" state_a))) =
     ["/models/loras/b.safetensors"%string].
Proof.
  destruct (load_lora_single_slot_cache "/models/loras/a.safetensors" state_a)
    as (Hhit & _ & Hop_a).
  destruct (load_lora_single_slot_cache "/models/loras/b.safetensors" state_a)
    as (_ & Hmiss & Hop_b).
  split; [exact (Hhit file_a eq_refl)|].
  split.
  - apply (Hmiss "/models/loras/a.safetensors"%string file_a eq_refl).
    discriminate.
  - split.
    + assert (Hname : "a.safetensors"%string <> ""%string) by discriminate.
      apply (proj1 (Hop_a 5 "a.safetensors"%string 1%Z "all"%string
                      Hname eq_refl eq_refl) file_a eq_refl).
    + assert (Hname : "b.safetensors"%string <> ""%string) by discriminate.
      apply (proj2 (Hop_b 5 "b.safetensors"%string 1%Z "all"%string
                      Hname eq_refl eq_refl)
               "/models/loras/a.safetensors"%string file_a file_b eq_refl);
        [discriminate | reflexivity].
Defined.

End Runs.

(** * Further properties of the loader *)

(** ** More on the block filter and the key normaliser *)

Lemma fold_filter_entry_unknown {V} (sel : string) (l : dict V) : forall acc,
  sel <> "single_blocks" -> sel <> "double_blocks" ->
  fold_left (filter_entry sel) l acc = acc.
Proof.
  induction l as [|[k v] l IH]; intros acc H1 H2; cbn [fold_left]; [reflexivity|].
  rewrite IH by assumption. unfold filter_entry.
  destruct (String.eqb_spec sel "single_blocks"); [contradiction|].
  destruct (String.eqb_spec sel "double_blocks"); [contradiction|].
  reflexivity.
Qed.

Lemma keys_filter_incl {V} (P : string * V -> bool) (d : dict V) (k : string) :
  In k (keys (filter P d)) -> In k (keys d).
Proof.
  unfold keys. intros Hin. apply in_map_iff in Hin as (e & <- & He).
  apply filter_In in He as [He _]. now apply in_map.
Qed.

Lemma wf_filter {V} (P : string * V -> bool) (d : dict V) :
  wf d -> wf (filter P d).
Proof.
  unfold wf. induction d as [|[k v] d IH]; cbn [filter keys map fst]; intros Hnd.
  - constructor.
  - inversion Hnd as [|? ? Hk Hd]; subst.
    destruct (P (k, v)); [|now apply IH].
    cbn [map fst]. constructor; [|now apply IH].
    intros Hin. apply Hk. now apply keys_filter_incl in Hin.
Qed.

Lemma filter_twice {A} (P : A -> bool) (l : list A) :
  filter P (filter P l) = filter P l.
Proof.
  induction l as [|x l IH]; cbn [filter]; [reflexivity|].
  destruct (P x) eqn:Hx; cbn [filter]; [|exact IH].
  now rewrite Hx, IH.
Qed.

Lemma get_filter_by_key {V} (Q : string -> bool) (d : dict V) (k : string) :
  get (filter (fun e => Q (fst e)) d) k = if Q k then get d k else None.
Proof.
  induction d as [|[k' v] d IH]; cbn [filter get fst].
  - now destruct (Q k).
  - destruct (Q k') eqn:Hk'; cbn [get].
    + destruct (String.eqb_spec k' k) as [-> | ne]; [now rewrite Hk' | exact IH].
    + destruct (String.eqb_spec k' k) as [-> | ne]; [now rewrite IH, Hk' | exact IH].
Qed.

(** The filter on a dictionary, selector by selector. *)
Lemma filter_lora_keys_cases {V} (lora : dict V) (sel : string) :
  wf lora ->
  filter_lora_keys lora sel =
  if String.eqb sel "all" then lora
  else if String.eqb sel "single_blocks" || String.eqb sel "double_blocks"
       then filter (fun e => contains sel (convert_key_format (fst e))) lora
       else [].
Proof.
  intros Hwf. unfold filter_lora_keys.
  destruct (String.eqb sel "all"); [reflexivity|].
  destruct (String.eqb_spec sel "single_blocks") as [-> | n1]; cbn [orb].
  - now rewrite fold_filter_entry by (auto).
  - destruct (String.eqb_spec sel "double_blocks") as [-> | n2].
    + now rewrite fold_filter_entry by (auto).
    + now apply fold_filter_entry_unknown.
Qed.

(** X1.  A selector that is none of "all", "single_blocks" and
    "double_blocks" selects nothing: the filter returns the empty
    mapping, whatever the input. *)
Theorem filter_lora_keys_unknown_selector {V} (lora : dict V) (sel : string) :
  sel <> "all" -> sel <> "single_blocks" -> sel <> "double_blocks" ->
  filter_lora_keys lora sel = [].
Proof.
  intros Ha Hs Hd. unfold filter_lora_keys.
  destruct (String.eqb_spec sel "all"); [contradiction|].
  now apply fold_filter_entry_unknown.
Qed.

Lemma filter_lora_keys_unknown_selector_witness :
  filter_lora_keys Sym.file_a "triple_blocks" = [].
Proof.
  apply (filter_lora_keys_unknown_selector Sym.file_a "triple_blocks");
    discriminate.
Defined.

(** X2.  Whatever the selector, the filter of a dictionary is again a
    dictionary and holds only entries of the input, each with the value
    it had. *)
Theorem filter_lora_keys_sub_mapping {V} (lora : dict V) (sel : string) :
  wf lora ->
  wf (filter_lora_keys lora sel)
  /\ (forall e, In e (filter_lora_keys lora sel) -> In e lora).
Proof.
  intros Hwf. rewrite filter_lora_keys_cases by assumption.
  destruct (String.eqb sel "all"); [now split|].
  destruct (String.eqb sel "single_blocks" || String.eqb sel "double_blocks").
  - split; [now apply wf_filter|].
    intros e He. now apply filter_In in He.
  - split; [constructor | intros e []].
Qed.

Lemma wf_file_a : wf Sym.file_a.
Proof.
  unfold wf, keys, Sym.file_a; simpl.
  repeat constructor; simpl; intuition discriminate.
Qed.

Lemma filter_lora_keys_sub_mapping_witness :
  wf (filter_lora_keys Sym.file_a "double_blocks")
  /\ (forall e, In e (filter_lora_keys Sym.file_a "double_blocks") ->
      In e Sym.file_a).
Proof. exact (filter_lora_keys_sub_mapping Sym.file_a "double_blocks" wf_file_a). Defined.

(** X3.  Filtering twice with the same selector gives what filtering
    once gives. *)
Theorem filter_lora_keys_idempotent {V} (lora : dict V) (sel : string) :
  wf lora ->
  filter_lora_keys (filter_lora_keys lora sel) sel = filter_lora_keys lora sel.
Proof.
  intros Hwf. rewrite (filter_lora_keys_cases lora) by assumption.
  destruct (String.eqb sel "all") eqn:Ha.
  - unfold filter_lora_keys. now rewrite Ha.
  - destruct (String.eqb sel "single_blocks" || String.eqb sel "double_blocks") eqn:Hs.
    + rewrite filter_lora_keys_cases by now apply wf_filter.
      rewrite Ha, Hs. apply filter_twice.
    + unfold filter_lora_keys. now rewrite Ha.
Qed.

Lemma filter_lora_keys_idempotent_witness :
  filter_lora_keys (filter_lora_keys Sym.file_a "single_blocks") "single_blocks" =
  filter_lora_keys Sym.file_a "single_blocks".
Proof. exact (filter_lora_keys_idempotent Sym.file_a "single_blocks" wf_file_a). Defined.

(** X4.  With a block selector, looking a key up in the filtered
    dictionary gives its value in the input when the normalised key
    contains the selector, and nothing otherwise. *)
Theorem filter_lora_keys_lookup {V} (lora : dict V) (sel key : string) :
  wf lora ->
  sel = "single_blocks" \/ sel = "double_blocks" ->
  get (filter_lora_keys lora sel) key =
  if contains sel (convert_key_format key) then get lora key else None.
Proof.
  intros Hwf Hsel. unfold filter_lora_keys.
  replace (String.eqb sel "all") with false
    by (destruct Hsel as [-> | ->]; reflexivity).
  rewrite fold_filter_entry by assumption. cbn [app].
  apply (get_filter_by_key (fun k => contains sel (convert_key_format k))).
Qed.

Lemma filter_lora_keys_lookup_witness :
  get (filter_lora_keys Sym.file_a "double_blocks")
    "diffusion_model.single_blocks.0.linear1.lora_A.weight" = None.
Proof.
  exact (filter_lora_keys_lookup Sym.file_a "double_blocks"
           "diffusion_model.single_blocks.0.linear1.lora_A.weight"
           wf_file_a (or_intror eq_refl)).
Defined.

Lemma strip_first_prefix_suffix (ps : list string) (key : string) :
  exists p, (p = "" \/ In p ps) /\ key = p ++ strip_first_prefix ps key.
Proof.
  induction ps as [|p ps IH]; cbn [strip_first_prefix].
  - exists "". split; [now left | reflexivity].
  - destruct (startswith p key) eqn:Hp.
    + exists p. split; [right; now left | now apply startswith_split].
    + destruct IH as (q & [-> | Hq] & Heq).
      * exists "". split; [now left | exact Heq].
      * exists q. split; [right; now right | exact Heq].
Qed.

Lemma length_append (a b : string) :
  String.length (a ++ b) = String.length a + String.length b.
Proof. induction a as [|c a IH]; simpl; [reflexivity | now rewrite IH]. Qed.

(** X5.  The normalised key is always the end of the key: the key is the
    normalised key with nothing, "diffusion_model." or "transformer." in
    front, so normalising never makes a key longer and never changes a
    character of what it keeps. *)
Theorem convert_key_format_is_suffix (key : string) :
  (exists p, (p = "" \/ p = "diffusion_model." \/ p = "transformer.")
             /\ key = p ++ convert_key_format key)
  /\ String.length (convert_key_format key) <= String.length key.
Proof.
  destruct (strip_first_prefix_suffix prefixes key) as (p & Hp & Heq).
  fold (convert_key_format key) in Heq.
  split.
  - exists p. split; [|exact Heq].
    destruct Hp as [-> | [<- | [<- | []]]]; auto.
  - rewrite Heq at 2. rewrite length_append. lia.
Qed.

(** ** More on the converter *)

Section ConverterMore.

Context {tensor model strength : Type}.
Context {T : Tensor tensor} {H : Host tensor model strength}.

Implicit Types (lora l acc lora_alphas : dict tensor).
Implicit Types (st : state tensor model strength).

Local Open Scope list_scope.

Lemma target_diffusers_prefix key new_key :
  target key = Some new_key ->
  exists rest, new_key = ("diffusion_model." ++ rest)%string.
Proof.
  unfold target, diffusers_prefix.
  destruct (weight_key key); [|discriminate].
  destruct (contains "lora_down" key).
  - intros [= <-]. eexists. reflexivity.
  - destruct (contains "lora_up" key); [|discriminate].
    intros [= <-]. eexists. reflexivity.
Qed.

Lemma converted_key_prefixes lora_alphas l st out st' new_key :
  for_each (convert_entry lora_alphas) l [] st = (Ok out, st') ->
  In new_key (keys out) ->
  startswith "diffusion_model." new_key = true
  /\ startswith lora_unet_prefix new_key = false.
Proof.
  intros Hrun Hin.
  destruct (for_each_convert_keys _ _ _ _ _ _ Hrun new_key Hin)
    as [[] | (e & _ & Ht)].
  apply target_diffusers_prefix in Ht as (rest & ->).
  split; [apply startswith_app | reflexivity].
Qed.

(** X6.  Every key of a converted mapping starts with
    "diffusion_model."; none starts with "lora_unet_". *)
Theorem check_for_musubi_output_keys lora st out st' new_key :
  musubi_detected lora = true ->
  check_for_musubi lora st = (Ok out, st') ->
  In new_key (keys out) ->
  startswith "diffusion_model." new_key = true
  /\ startswith lora_unet_prefix new_key = false.
Proof.
  intros Hm Hrun. rewrite check_for_musubi_branches, Hm in Hrun.
  now apply converted_key_prefixes with (1 := Hrun).
Qed.

(** X7.  What the converter returns it accepts as it is: given its own
    output it announces the Diffusers format and returns that mapping
    unchanged, whichever branch produced it. *)
Theorem check_for_musubi_on_its_output lora st out st' :
  check_for_musubi lora st = (Ok out, st') ->
  forall st2,
    check_for_musubi out st2 =
    (Ok out, printed "Loading Diffusers format LoRA..." st2).
Proof.
  intros Hrun st2. rewrite check_for_musubi_branches in Hrun.
  rewrite check_for_musubi_branches.
  destruct (musubi_detected lora) eqn:Hm.
  - rewrite musubi_detected_iff, existsb_alpha_key_false; [reflexivity|].
    intros key Hin Hp.
    destruct (converted_key_prefixes _ _ _ _ _ _ Hrun Hin) as [_ Hno].
    rewrite Hno in Hp. discriminate.
  - injection Hrun as <- _. now rewrite Hm.
Qed.

Lemma wf_set {V} (k : string) (v : V) (d : dict V) : wf d -> wf (set k v d).
Proof.
  unfold wf. induction d as [|[k' v'] d IH]; cbn [set keys map fst]; intros Hnd.
  - repeat constructor. intros [].
  - inversion Hnd as [|? ? Hk Hd]; subst.
    destruct (String.eqb_spec k' k) as [-> | ne]; cbn [map fst].
    + now constructor.
    + constructor; [|now apply IH].
      intros Hin. apply (keys_set k k' v d) in Hin as [-> | Hin]; auto.
Qed.

Lemma for_each_convert_wf lora_alphas l : forall acc st out st',
  for_each (convert_entry lora_alphas) l acc st = (Ok out, st') ->
  wf acc -> wf out.
Proof.
  induction l as [|[key weight] l IH]; intros acc st out st' Hrun Hwf.
  - cbn in Hrun. now injection Hrun as <- _.
  - rewrite for_each_cons, convert_entry_run in Hrun.
    destruct (target key).
    + destruct (nth_error (shape weight) _); [|discriminate].
      apply (IH _ _ _ _ Hrun). now apply wf_set.
    + now apply (IH _ _ _ _ Hrun).
Qed.

(** X8.  The converter returns a dictionary whenever it is given one:
    no key occurs twice in its output, also when several input keys are
    converted to the same name. *)
Theorem check_for_musubi_output_wf lora st out st' :
  wf lora ->
  check_for_musubi lora st = (Ok out, st') ->
  wf out.
Proof.
  intros Hwf Hrun. rewrite check_for_musubi_branches in Hrun.
  destruct (musubi_detected lora).
  - apply (for_each_convert_wf _ _ _ _ _ _ Hrun). constructor.
  - now injection Hrun as <- _.
Qed.





(** X11.  In a conversion that completes, a projection weight of a
    module with an alpha in the table is in the output, under its
    converted name, multiplied by the square root of alpha divided by
    the length of its axis, unless a later key is converted to the same
    name. *)
Theorem check_for_musubi_scales_by_alpha
    lora st out st' l1 key weight l2 new_key alpha dim :
  musubi_detected lora = true ->
  check_for_musubi lora st = (Ok out, st') ->
  lora = l1 ++ (key, weight) :: l2 ->
  target key = Some new_key ->
  get (fst (scan_alphas lora)) (before_first_dot key) = Some alpha ->
  nth_error (shape weight) (axis_of key) = Some dim ->
  (forall e, In e l2 -> target (fst e) <> Some new_key) ->
  get out new_key = Some (mul weight (sqrt (div_int alpha dim))).
Proof.
  intros Hm Hrun -> Ht Halpha Hdim Hl2.
  rewrite check_for_musubi_branches, Hm in Hrun.
  rewrite for_each_app in Hrun.
  destruct (for_each (convert_entry _) l1 [] _) as [[acc1|e] st1]; [|discriminate].
  rewrite for_each_cons, convert_entry_run, Ht in Hrun.
  fold (axis_of key) in Hrun. rewrite Hdim, Halpha in Hrun.
  rewrite (for_each_convert_get _ new_key _ _ _ _ _ Hrun Hl2).
  apply get_set_same.
Qed.

Lemma present_alpha_line_count lora_alphas name key :
  mem name lora_alphas = true ->
  count_occ string_dec (entry_lines lora_alphas key)
    ("missing alpha for " ++ name)%string = 0.
Proof.
  intros Hmem. unfold entry_lines.
  destruct (weight_key key); [|reflexivity].
  destruct (contains "lora_down" key || contains "lora_up" key).
  - destruct (mem (before_first_dot key) lora_alphas) eqn:Hk; [reflexivity|].
    cbn [count_occ].
    destruct (string_dec _ _) as [Heq|_]; [|reflexivity].
    apply append_cancel_l in Heq. rewrite Heq in Hk. congruence.
  - cbn [count_occ].
    destruct (string_dec _ _) as [Heq|_]; [|reflexivity].
    simpl in Heq. discriminate Heq.
Qed.

(** X12.  In a conversion that completes, the line "missing alpha for
    <module>" is never printed for a module that has an alpha in the
    table. *)
Theorem check_for_musubi_no_diagnostic_with_alpha lora name st out st' :
  musubi_detected lora = true ->
  mem name (fst (scan_alphas lora)) = true ->
  check_for_musubi lora st = (Ok out, st') ->
  count_occ string_dec (stdout st') ("missing alpha for " ++ name)%string =
  count_occ string_dec (stdout st) ("missing alpha for " ++ name)%string.
Proof.
  intros Hm Hmem Hrun.
  rewrite check_for_musubi_branches, Hm in Hrun.
  apply for_each_convert_stdout in Hrun. subst st'.
  unfold with_stdout, printed; cbn [stdout].
  rewrite !count_occ_app. cbn [count_occ].
  destruct (string_dec _ _) as [Heq|_]; [discriminate Heq|].
  assert (Hz : count_occ string_dec
                 (flat_map (fun e => entry_lines (fst (scan_alphas lora)) (fst e)) lora)
                 ("missing alpha for " ++ name)%string = 0).
  { induction lora as [|[k w] l IH] in |- * at 2; cbn [flat_map fst]; [reflexivity|].
    now rewrite count_occ_app, IH, present_alpha_line_count. }
  rewrite Hz. lia.
Qed.

(** *** The alpha table *)

Lemma scan_get_stable name value l : forall lora_alphas musubi,
  get lora_alphas name = Some value ->
  get (fst (fold_left scan_entry l (lora_alphas, musubi))) name = Some value.
Proof.
  induction l as [|[key v] l IH]; intros a b Hget; cbn [fold_left]; [exact Hget|].
  unfold scan_entry.
  destruct (startswith lora_unet_prefix key); [|now apply IH].
  destruct (mem (before_first_dot key) a) eqn:Hm; cbn [negb andb]; [now apply IH|].
  destruct (contains "alpha" key); [|now apply IH].
  apply IH. rewrite get_set_other; [exact Hget|].
  intros Heq. unfold mem in Hm. rewrite Heq, Hget in Hm. discriminate.
Qed.

Lemma scan_records_new_module key value l2 (p : dict tensor * bool) :
  alpha_key key = true ->
  mem (before_first_dot key) (fst p) = false ->
  get (fst (fold_left scan_entry ((key, value) :: l2) p)) (before_first_dot key) =
  Some value.
Proof.
  intros Hk Hmem. destruct p as [a b]. cbn [fst] in Hmem. cbn [fold_left].
  unfold alpha_key in Hk. apply andb_prop in Hk as [Hp Ha].
  assert (Hstep : scan_entry (a, b) (key, value) =
                  (set (before_first_dot key) value a, true))
    by (unfold scan_entry; now rewrite Hp, Ha, Hmem).
  rewrite Hstep. apply scan_get_stable, get_set_same.
Qed.

(** X13.  The alpha of a module is the value of the first key of the
    module, in the order of the mapping, that has the sentinel prefix and
    contains "alpha"; later ones are ignored. *)
Theorem scan_alphas_first_alpha_wins l1 key value l2 :
  alpha_key key = true ->
  (forall e, In e l1 -> alpha_key (fst e) = true ->
             before_first_dot (fst e) <> before_first_dot key) ->
  get (fst (scan_alphas (l1 ++ (key, value) :: l2))) (before_first_dot key) =
  Some value.
Proof.
  intros Hk Hl1. unfold scan_alphas. rewrite fold_left_app.
  apply scan_records_new_module; [exact Hk|].
  etransitivity; [exact (scan_table_mem (before_first_dot key) l1 [] false)|].
  cbn [orb].
  destruct (existsb _ l1) eqn:Hex; [|reflexivity].
  apply existsb_exists in Hex as (e & He & Hp).
  apply andb_prop in Hp as [Ha Hn]. apply String.eqb_eq in Hn.
  elim (Hl1 e He Ha Hn).
Qed.

(** X14.  A module is in the alpha table exactly when the mapping has a
    key with the sentinel prefix that contains "alpha" and whose text
    before the first dot is the module. *)
Theorem scan_alphas_modules lora name :
  mem name (fst (scan_alphas lora)) = true <->
  exists key value,
    In (key, value) lora /\ alpha_key key = true /\ before_first_dot key = name.
Proof.
  rewrite scan_alphas_mem. split.
  - intros Hex. apply existsb_exists in Hex as ([key value] & He & Hp).
    apply andb_prop in Hp as [Ha Hn]. apply String.eqb_eq in Hn.
    now exists key, value.
  - intros (key & value & He & Ha & Hn).
    apply existsb_exists. exists (key, value). split; [exact He|].
    cbn [fst]. rewrite Ha. now apply String.eqb_eq.
Qed.

(** *** What the converter leaves alone *)

Lemma for_each_convert_appends lora_alphas l : forall acc st,
  exists lines,
    snd (for_each (convert_entry lora_alphas) l acc st) =
    with_stdout (stdout st ++ lines) st.
Proof.
  induction l as [|[key weight] l IH]; intros acc st.
  - exists []. cbn. now rewrite with_stdout_nil.
  - rewrite for_each_cons, convert_entry_run.
    destruct (target key).
    + destruct (nth_error (shape weight) _).
      * match goal with
        | |- context [for_each _ l ?acc' ?st'] =>
            destruct (IH acc' st') as (lines & ->)
        end.
        exists (entry_lines lora_alphas key ++ lines).
        unfold with_stdout; cbn [stdout calls loaded_lora]. now rewrite app_assoc.
      * exists []. cbn [snd]. now rewrite with_stdout_nil.
    + destruct (IH acc (with_stdout (stdout st ++ entry_lines lora_alphas key) st))
        as (lines & ->).
      exists (entry_lines lora_alphas key ++ lines).
      unfold with_stdout; cbn [stdout calls loaded_lora]. now rewrite app_assoc.
Qed.

(** X15.  The converter only prints: whether it returns or raises, it
    makes no collaborator call and leaves the cache as it is, and what
    was printed before is still there, followed by the line that
    announces the format and the diagnostics. *)
Theorem check_for_musubi_only_prints lora st :
  let st' := snd (check_for_musubi lora st) in
  calls st' = calls st
  /\ loaded_lora st' = loaded_lora st
  /\ exists line rest,
       (line = "Loading Musubi Tuner format LoRA..."%string
        \/ line = "Loading Diffusers format LoRA..."%string)
       /\ stdout st' = stdout st ++ line :: rest.
Proof.
  cbv zeta. rewrite check_for_musubi_branches.
  destruct (musubi_detected lora).
  - destruct (for_each_convert_appends (fst (scan_alphas lora)) lora []
                (printed "Loading Musubi Tuner format LoRA..." st)) as (lines & ->).
    unfold with_stdout, printed; cbn [stdout calls loaded_lora].
    split; [reflexivity|]. split; [reflexivity|].
    eexists _, lines. split; [now left|]. now rewrite <- app_assoc.
  - cbn [snd]. unfold printed; cbn [stdout calls loaded_lora].
    split; [reflexivity|]. split; [reflexivity|].
    eexists _, []. split; [now right | reflexivity].
Qed.

End ConverterMore.

(** ** More on the public operation *)

Section CacheMore.

Context {tensor model strength : Type}.
Context {T : Tensor tensor} {H : Host tensor model strength}.

Implicit Types (st : state tensor model strength).

Local Open Scope list_scope.

(** The run of the public operation on a name whose file is not there. *)
Lemma load_lora_not_found m name s blocks_type st :
  name <> ""%string ->
  path_exists (get_full_path "loras" name) = false ->
  load_lora m name s blocks_type st =
  (Raise (Exception ("Lora " ++ name ++ " not found at "
                     ++ get_full_path "loras" name)%string),
   mkState (stdout st)
     ((calls st ++ [GetFullPath "loras" name])
      ++ [PathExists (get_full_path "loras" name)])
     (loaded_lora st)).
Proof.
  intros Hname Hex.
  destruct name as [|c name]; [now elim Hname|].
  unfold load_lora, bind, record_call, raise; cbn [stdout calls loaded_lora].
  now rewrite Hex.
Qed.

(** X16.  When the resolved path does not exist the public operation
    raises the exception that names the file and the path; it has asked
    for the path and whether it exists and done nothing else: nothing is
    read, printed or patched and the cache is as it was. *)
Theorem load_lora_missing_file m name s blocks_type st :
  name <> ""%string ->
  path_exists (get_full_path "loras" name) = false ->
  load_lora m name s blocks_type st =
  (Raise (Exception ("Lora " ++ name ++ " not found at "
                     ++ get_full_path "loras" name)%string),
   mkState (stdout st)
     ((calls st ++ [GetFullPath "loras" name])
      ++ [PathExists (get_full_path "loras" name)])
     (loaded_lora st)).
Proof.
  intros Hname Hex.
  destruct name as [|c name]; [now elim Hname|].
  unfold load_lora, bind, record_call, raise; cbn [stdout calls loaded_lora].
  now rewrite Hex.
Qed.

(** The cache after the cache stage. *)
Lemma load_cached_cache path st :
  loaded_lora (snd (load_cached path st)) = loaded_lora st
  /\ calls (snd (load_cached path st)) = calls st
  /\ (exists mapping, loaded_lora st = Some (path, mapping))
  \/
  calls (snd (load_cached path st)) = calls st ++ [LoadTorchFile path]
  /\ ((exists fresh, load_torch_file path = Ok fresh
                     /\ loaded_lora (snd (load_cached path st)) = Some (path, fresh))
      \/ (exists e, load_torch_file path = Raise e)
         /\ loaded_lora (snd (load_cached path st)) = None).
Proof.
  destruct (loaded_lora st) as [[path0 mapping0]|] eqn:Hst.
  - destruct (String.eqb_spec path0 path) as [-> | ne].
    + left. rewrite (load_cached_hit path mapping0) by exact Hst.
      cbn [snd]. split; [exact Hst|]. split; [reflexivity | now exists mapping0].
    + right. rewrite load_cached_reload
        by (intros mapping Hc; rewrite Hst in Hc; congruence).
      destruct (load_torch_file path) as [fresh|e]; cbn [snd calls loaded_lora].
      * split; [reflexivity|]. left. now exists fresh.
      * split; [reflexivity|]. right. split; [now exists e | reflexivity].
  - right. rewrite load_cached_reload
      by (intros mapping Hc; rewrite Hst in Hc; discriminate).
    destruct (load_torch_file path) as [fresh|e]; cbn [snd calls loaded_lora].
    + split; [reflexivity|]. left. now exists fresh.
    + split; [reflexivity|]. right. split; [now exists e | reflexivity].
Qed.

(** X17.  Once a call for a name has found its file and the file can be
    read, the cache holds the path of that name, and a second call for
    the same name, with any model, strength and selector, reads nothing
    and leaves the cache as the first call left it. *)
Theorem load_lora_second_call_reads_nothing m1 s1 b1 m2 s2 b2 name fresh st :
  name <> ""%string ->
  path_exists (get_full_path "loras" name) = true ->
  load_torch_file (get_full_path "loras" name) = Ok fresh ->
  let st1 := snd (load_lora m1 name s1 b1 st) in
  let st2 := snd (load_lora m2 name s2 b2 st1) in
  (exists mapping, loaded_lora st1 = Some (get_full_path "loras" name, mapping))
  /\ loaded_lora st2 = loaded_lora st1
  /\ deserializations (calls st2) = deserializations (calls st1).
Proof.
  intros Hname Hex Hload. cbv zeta.
  set (path := get_full_path "loras" name) in *.
  destruct (load_lora_after_cache m1 name s1 b1 st Hname Hex) as [Hl1 _].
  cbv zeta in Hl1. fold path in Hl1.
  assert (Hc1 : exists mapping,
             loaded_lora (snd (load_lora m1 name s1 b1 st)) = Some (path, mapping)).
  { rewrite Hl1.
    match goal with
    | |- context [load_cached path ?st0] =>
        destruct (load_cached_cache path st0)
          as [(-> & _ & Hhit) | (_ & [(f & _ & ->) | ((e & He) & _)])]
    end.
    - exact Hhit.
    - now exists f.
    - rewrite Hload in He. discriminate. }
  split; [exact Hc1|].
  destruct Hc1 as (mapping & Hc1).
  set (st1 := snd (load_lora m1 name s1 b1 st)) in *.
  destruct (load_lora_after_cache m2 name s2 b2 st1 Hname Hex) as [Hl2 Hd2].
  cbv zeta in Hl2, Hd2. fold path in Hl2, Hd2.
  rewrite (load_cached_hit path mapping) in Hl2, Hd2 by exact Hc1.
  cbn [snd loaded_lora calls] in Hl2, Hd2.
  split; [exact Hl2|].
  rewrite Hd2, !deserializations_app. cbn [deserializations].
  now rewrite !app_nil_r.
Qed.

(** X18.  The cache stays true to the deserializer: if the cached
    mapping is what reading the cached path gives, it is so again after
    any call of the public operation, whatever its outcome. *)
Theorem load_lora_keeps_cache_coherent m name s blocks_type st :
  coherent st ->
  coherent (snd (load_lora m name s blocks_type st)).
Proof.
  intros Hco.
  destruct (string_dec name "") as [-> | Hname]; [exact Hco|].
  rename name into nm.
  destruct (path_exists (get_full_path "loras" nm)) eqn:Hex.
  - destruct (load_lora_after_cache m nm s blocks_type st Hname Hex) as [Hl _].
    cbv zeta in Hl.
    intros path mapping Hc. rewrite Hl in Hc.
    match type of Hc with
    | context [load_cached ?p ?st0] =>
        destruct (load_cached_cache p st0)
          as [(Hsame & _ & _) | (_ & [(f & Hf & Hnew) | (_ & Hnone)])]
    end.
    + rewrite Hsame in Hc. cbn [loaded_lora] in Hc. exact (Hco _ _ Hc).
    + rewrite Hnew in Hc. injection Hc as <- <-. exact Hf.
    + rewrite Hnone in Hc. discriminate.
  - rewrite load_lora_not_found by assumption.
    intros path mapping Hc. cbn [snd loaded_lora] in Hc. exact (Hco _ _ Hc).
Qed.

(** X19.  When the file is there, the cache stage gives a mapping and
    the converter returns, the public operation hands the model, the
    filtered converted mapping and the strength to the patch applicator,
    once, and returns the model the applicator gives, the model it was
    given when the applicator gives none, and the applicator's exception
    when it raises. *)
Theorem load_lora_pipeline m name s blocks_type st lora st1 diffusers_lora st2 :
  name <> ""%string ->
  path_exists (get_full_path "loras" name) = true ->
  load_cached (get_full_path "loras" name)
    (mkState (stdout st)
       ((calls st ++ [GetFullPath "loras" name])
        ++ [PathExists (get_full_path "loras" name)])
       (loaded_lora st)) = (Ok lora, st1) ->
  check_for_musubi lora st1 = (Ok diffusers_lora, st2) ->
  load_lora m name s blocks_type st =
  (match load_lora_for_models m (filter_lora_keys diffusers_lora blocks_type) s with
   | Ok (Some new_model) => Ok new_model
   | Ok None => Ok m
   | Raise e => Raise e
   end,
   mkState (stdout st2)
     (calls st2
      ++ [LoadLoraForModels m (filter_lora_keys diffusers_lora blocks_type) s])
     (loaded_lora st2)).
Proof.
  intros Hname Hex Hcache Hconv.
  destruct name as [|c name]; [now elim Hname|].
  unfold load_lora, bind, record_call; cbn [stdout calls loaded_lora].
  rewrite Hex; cbn [negb]. rewrite Hcache, Hconv.
  unfold lift, ret.
  now destruct (load_lora_for_models _ _ _) as [[m'|]|e].
Qed.

(** X20.  One call of the public operation reads at most one file, and
    only the file at the path the name resolves to. *)
Theorem load_lora_reads_at_most_once m name s blocks_type st :
  let st' := snd (load_lora m name s blocks_type st) in
  deserializations (calls st') = deserializations (calls st)
  \/ deserializations (calls st') =
     deserializations (calls st) ++ [get_full_path "loras" name].
Proof.
  cbv zeta.
  destruct (string_dec name "") as [-> | Hname]; [now left|].
  rename name into nm.
  destruct (path_exists (get_full_path "loras" nm)) eqn:Hex.
  - destruct (load_lora_after_cache m nm s blocks_type st Hname Hex) as [_ Hd].
    cbv zeta in Hd. rewrite Hd.
    match goal with
    | |- context [load_cached ?p ?st0] =>
        destruct (load_cached_cache p st0) as [(_ & -> & _) | (-> & _)]
    end; cbn [calls]; rewrite !deserializations_app; cbn [deserializations];
      rewrite ?app_nil_r; auto.
  - rewrite load_lora_not_found by assumption. cbn [snd calls].
    rewrite !deserializations_app; cbn [deserializations].
    rewrite !app_nil_r. now left.
Qed.

End CacheMore.

(** ** The re-evaluation key *)

Lemma append_cancel_r (a b c : string) : (a ++ c = b ++ c)%string -> a = b.
Proof.
  revert b; induction a as [|x a IH]; intros [|y b] Heq; simpl in Heq.
  - reflexivity.
  - apply (f_equal String.length) in Heq. simpl in Heq.
    rewrite length_append in Heq. lia.
  - apply (f_equal String.length) in Heq. simpl in Heq.
    rewrite length_append in Heq. lia.
  - injection Heq as -> Heq. f_equal. now apply IH.
Qed.

(** X21.  The re-evaluation key does not depend on the model, and it
    tells apart two requests that differ in one input only: another
    selector, another name, or a strength that is rendered differently
    gives another key. *)
Theorem IS_CHANGED_separates {model strength} {F : StrengthFormat strength}
    (m m' : model) (name name' : string) (s s' : strength) (b b' : string) :
  IS_CHANGED m name s b = IS_CHANGED m' name s b
  /\ (IS_CHANGED m name s b = IS_CHANGED m name s b' -> b = b')
  /\ (IS_CHANGED m name s b = IS_CHANGED m name' s b -> name = name')
  /\ (IS_CHANGED m name s b = IS_CHANGED m name s' b ->
      format_strength s = format_strength s').
Proof.
  unfold IS_CHANGED. split; [reflexivity|]. split; [|split]; intros Heq.
  - now do 4 apply append_cancel_l in Heq.
  - now apply append_cancel_r in Heq.
  - do 2 apply append_cancel_l in Heq. now apply append_cancel_r in Heq.
Qed.

(** ** More concrete runs *)

Section MoreRuns.

Import Sym.
Local Open Scope list_scope.

Lemma wf_musubi_file : wf musubi_file.
Proof.
  unfold wf, keys, musubi_file; simpl.
  repeat constructor; simpl; intuition discriminate.
Qed.

Lemma musubi_file_run :
  check_for_musubi musubi_file state0 =
  (Ok [("diffusion_model.single_blocks.0.attn_qkv.lora_A.weight"%string,
        Mul (Leaf "T1" [16; 3072]%Z) (Sqrt (DivInt (Leaf "a" []) 16)));
       ("diffusion_model.single_blocks.0.attn_qkv.lora_B.weight"%string,
        Mul (Leaf "T2" [3072; 16]%Z) (Sqrt (DivInt (Leaf "a" []) 16)))],
   printed "Loading Musubi Tuner format LoRA..." state0).
Proof. reflexivity. Qed.

Lemma check_for_musubi_output_keys_witness :
  startswith "diffusion_model."
    "diffusion_model.single_blocks.0.attn_qkv.lora_A.weight" = true
  /\ startswith lora_unet_prefix
       "diffusion_model.single_blocks.0.attn_qkv.lora_A.weight" = false.
Proof.
  apply (check_for_musubi_output_keys musubi_file state0 _ _
           "diffusion_model.single_blocks.0.attn_qkv.lora_A.weight"
           eq_refl musubi_file_run).
  simpl. auto.
Defined.

Lemma check_for_musubi_on_its_output_witness :
  check_for_musubi
    [("diffusion_model.single_blocks.0.attn_qkv.lora_A.weight"%string,
      Mul (Leaf "T1" [16; 3072]%Z) (Sqrt (DivInt (Leaf "a" []) 16)));
     ("diffusion_model.single_blocks.0.attn_qkv.lora_B.weight"%string,
      Mul (Leaf "T2" [3072; 16]%Z) (Sqrt (DivInt (Leaf "a" []) 16)))]
    state0 =
  (Ok [("diffusion_model.single_blocks.0.attn_qkv.lora_A.weight"%string,
        Mul (Leaf "T1" [16; 3072]%Z) (Sqrt (DivInt (Leaf "a" []) 16)));
       ("diffusion_model.single_blocks.0.attn_qkv.lora_B.weight"%string,
        Mul (Leaf "T2" [3072; 16]%Z) (Sqrt (DivInt (Leaf "a" []) 16)))],
   printed "Loading Diffusers format LoRA..." state0).
Proof.
  exact (check_for_musubi_on_its_output musubi_file state0 _ _
           musubi_file_run state0).
Defined.

Lemma check_for_musubi_output_wf_witness :
  wf [("diffusion_model.single_blocks.0.attn_qkv.lora_A.weight"%string,
       Mul (Leaf "T1" [16; 3072]%Z) (Sqrt (DivInt (Leaf "a" []) 16)));
      ("diffusion_model.single_blocks.0.attn_qkv.lora_B.weight"%string,
       Mul (Leaf "T2" [3072; 16]%Z) (Sqrt (DivInt (Leaf "a" []) 16)))].
Proof.
  exact (check_for_musubi_output_wf musubi_file state0 _ _
           wf_musubi_file musubi_file_run).
Defined.




Lemma check_for_musubi_scales_by_alpha_witness :
  get [("diffusion_model.single_blocks.0.attn_qkv.lora_A.weight"%string,
        Mul (Leaf "T1" [16; 3072]%Z) (Sqrt (DivInt (Leaf "a" []) 16)));
       ("diffusion_model.single_blocks.0.attn_qkv.lora_B.weight"%string,
        Mul (Leaf "T2" [3072; 16]%Z) (Sqrt (DivInt (Leaf "a" []) 16)))]
    "diffusion_model.single_blocks.0.attn_qkv.lora_A.weight" =
  Some (mul (Leaf "T1" [16; 3072]%Z) (sqrt (div_int (Leaf "a" []) 16))).
Proof.
  apply (check_for_musubi_scales_by_alpha musubi_file state0 _ _
           [] "lora_unet_single_blocks_0_attn_qkv.lora_down.weight"
           (Leaf "T1" [16; 3072]%Z) (skipn 1 musubi_file)
           "diffusion_model.single_blocks.0.attn_qkv.lora_A.weight"
           (Leaf "a" []) 16%Z eq_refl musubi_file_run);
    try reflexivity.
  intros e [<- | [<- | []]]; vm_compute; discriminate.
Defined.

Lemma partial_alpha_file_run :
  check_for_musubi partial_alpha_file state0 =
  (Ok [("diffusion_model.x.lora_A.weight"%string, Leaf "xd" [4; 8]%Z);
       ("diffusion_model.x.lora_B.weight"%string, Leaf "xu" [8; 4]%Z);
       ("diffusion_model.y.lora_A.weight"%string,
        Mul (Leaf "yd" [4; 8]%Z) (Sqrt (DivInt (Leaf "ya" []) 4)))],
   mkState ["Loading Musubi Tuner format LoRA...";
            "missing alpha for lora_unet_x";
            "missing alpha for lora_unet_x";
            "unexpected key: lora_unet_y.bias in Musubi LoRA format"]%string
     [] None).
Proof. reflexivity. Qed.

Lemma check_for_musubi_no_diagnostic_with_alpha_witness :
  count_occ string_dec
    ["Loading Musubi Tuner format LoRA...";
     "missing alpha for lora_unet_x";
     "missing alpha for lora_unet_x";
     "unexpected key: lora_unet_y.bias in Musubi LoRA format"]%string
    "missing alpha for lora_unet_y"%string =
  count_occ string_dec [] "missing alpha for lora_unet_y"%string.
Proof.
  exact (check_for_musubi_no_diagnostic_with_alpha partial_alpha_file
           "lora_unet_y" state0 _ _ eq_refl eq_refl partial_alpha_file_run).
Defined.

Lemma scan_alphas_first_alpha_wins_witness :
  get (fst (scan_alphas two_alpha_file)) "lora_unet_q" = Some (Leaf "q1" []).
Proof.
  apply (scan_alphas_first_alpha_wins (firstn 1 two_alpha_file)
           "lora_unet_q.alpha" (Leaf "q1" []) (skipn 2 two_alpha_file) eq_refl).
  intros e [<- | []] Ha. discriminate Ha.
Defined.

Lemma scan_alphas_modules_witness :
  mem "lora_unet_y" (fst (scan_alphas partial_alpha_file)) = true.
Proof.
  apply (proj2 (scan_alphas_modules partial_alpha_file "lora_unet_y")).
  exists "lora_unet_y.alpha"%string, (Leaf "ya" []).
  split; [simpl; auto 10 | split; reflexivity].
Defined.

Lemma load_lora_missing_file_witness :
  load_lora 5 "c.safetensors" 100%Z "all" state0 =
  (Raise (Exception
            "Lora c.safetensors not found at /models/loras/c.safetensors"),
   mkState []
     [GetFullPath "loras" "c.safetensors";
      PathExists "/models/loras/c.safetensors"] None).
Proof.
  assert (Hname : "c.safetensors"%string <> ""%string) by discriminate.
  exact (load_lora_missing_file 5 "c.safetensors"%string 100%Z "all"%string state0
           Hname eq_refl).
Defined.

Lemma load_lora_second_call_reads_nothing_witness :
  let st1 := snd (load_lora 5 "a.safetensors" 100%Z "all" state0) in
  let st2 := snd (load_lora 7 "a.safetensors" 50%Z "single_blocks" st1) in
  (exists mapping, loaded_lora st1 = Some ("/models/loras/a.safetensors"%string, mapping))
  /\ loaded_lora st2 = loaded_lora st1
  /\ deserializations (calls st2) = deserializations (calls st1).
Proof.
  assert (Hname : "a.safetensors"%string <> ""%string) by discriminate.
  exact (load_lora_second_call_reads_nothing 5 100%Z "all"%string
           7 50%Z "single_blocks"%string "a.safetensors"%string file_a state0
           Hname eq_refl eq_refl).
Defined.

Lemma coherent_state_a : coherent state_a.
Proof. intros path mapping [= <- <-]. reflexivity. Qed.

Lemma load_lora_keeps_cache_coherent_witness :
  coherent (snd (load_lora 5 "b.safetensors" 100%Z "all" state_a)).
Proof.
  exact (load_lora_keeps_cache_coherent 5 "b.safetensors"%string 100%Z
           "all"%string state_a coherent_state_a).
Defined.

Lemma load_lora_pipeline_witness :
  load_lora 5 "a.safetensors" 100%Z "single_blocks" state_a =
  (Ok 6,
   mkState ["Loading Diffusers format LoRA..."%string]
     [GetFullPath "loras" "a.safetensors";
      PathExists "/models/loras/a.safetensors";
      LoadLoraForModels 5
        [("diffusion_model.single_blocks.0.linear1.lora_A.weight"%string,
          Leaf "a0" [4; 8]%Z)] 100%Z]
     (Some ("/models/loras/a.safetensors"%string, file_a))).
Proof.
  assert (Hname : "a.safetensors"%string <> ""%string) by discriminate.
  exact (load_lora_pipeline 5 "a.safetensors"%string 100%Z "single_blocks"%string
           state_a file_a _ file_a _ Hname eq_refl eq_refl eq_refl).
Defined.

Lemma IS_CHANGED_separates_witness :
  IS_CHANGED 5 "a.safetensors" 100%Z "all" = "a.safetensors_1.0_all"%string
  /\ ("all"%string = "all"%string)
  /\ ("a.safetensors"%string = "a.safetensors"%string)
  /\ (format_strength 100%Z = format_strength 100%Z).
Proof.
  destruct (IS_CHANGED_separates 5 7 "a.safetensors" "a.safetensors"
              100%Z 100%Z "all" "all") as (_ & Hb & Hn & Hs).
  split; [reflexivity|].
  split; [exact (Hb eq_refl)|]. split; [exact (Hn eq_refl) | exact (Hs eq_refl)].
Defined.

End MoreRuns.
